(** * The device state monitor of the device notifier applet

    A shallow embedding of [DevicesStateMonitor]
    (applets/devicenotifier/devicestatemonitor_p.cpp) and the properties
    its specification states about it.

    The monitor owns a hash from device identifiers (udi) to per-device
    status records.  Its slots are driven by signals of the Solid hardware
    layer; every slot looks the record up and mutates it through the
    iterator.  Solid is an oracle here: each call receives a snapshot of
    what [Solid::Device(udi)] answers at the time of the call. *)

From Stdlib Require Import ZArith Ascii String.
From stdpp Require Import base option strings list gmap fin_maps.

(** ** Qt values the monitor stores *)

Module Qt.

(** A [QVariant] as the monitor meets it: the default-constructed invalid
    variant, or a boolean, integer or string payload. *)
Inductive QVariant :=
| QVariant_null
| QVariant_bool (b : bool)
| QVariant_int (i : Z)
| QVariant_string (s : string).

Definition ascii_lower (c : ascii) : ascii :=
  let n := nat_of_ascii c in
  if (65 <=? n)%nat && (n <=? 90)%nat then ascii_of_nat (n + 32) else c.

Fixpoint toLower (s : string) : string :=
  match s with
  | EmptyString => EmptyString
  | String c r => String (ascii_lower c) (toLower r)
  end.

(** [QVariant::toBool]: the boolean itself; a number is true when it is
    not zero; a string is true unless its lower-case content is empty,
    "0" or "false"; the invalid variant is false. *)
Definition toBool (v : QVariant) : bool :=
  match v with
  | QVariant_null => false
  | QVariant_bool b => b
  | QVariant_int i => negb (i =? 0)%Z
  | QVariant_string s =>
      let l := toLower s in
      negb (bool_decide (l = EmptyString) || bool_decide (l = "0"%string)
            || bool_decide (l = "false"%string))
  end.

(** A [QDateTime]: the null value [QDateTime()] or a point in time, in
    milliseconds since the epoch (UTC). *)
Inductive QDateTime :=
| QDateTime_null
| QDateTime_utc (msecs : Z).

#[global] Instance QVariant_eq_dec : EqDecision QVariant.
Proof. solve_decision. Defined.

#[global] Instance QDateTime_eq_dec : EqDecision QDateTime.
Proof. solve_decision. Defined.

End Qt.

(** ** What Solid answers about a device *)

Module Solid.

(** [Solid::ErrorType] (solidnamespace.h). *)
Inductive ErrorType :=
| NoError
| UnauthorizedOperation
| DeviceBusy
| OperationFailed
| UserCanceled
| InvalidOption
| MissingDriver.

#[global] Instance ErrorType_eq_dec : EqDecision ErrorType.
Proof. solve_decision. Defined.

(** The [Solid::StorageAccess] interface of a device, as far as the
    monitor calls it. *)
Record StorageAccess := {
  canCheck : bool;
  canRepair : bool;
  isAccessible : bool;
}.

(** The [Solid::StorageDrive] interface. *)
Record StorageDrive := {
  isRemovable : bool;
  isHotpluggable : bool;
}.

(** A [Solid::OpticalDrive] interface object; it belongs to the drive
    device, which has an identifier of its own. *)
Record OpticalDrive := {
  drive_udi : string;
}.

(** The answers of [Solid::Device(udi)]: [is_T] is [device.is<T>()],
    [as_T] is the pointer [device.as<T>()] ([None] for [nullptr]; for
    cameras and media players only whether it is null matters), and
    [ancestor_T] is [getAncestorAs<T>(device)], a helper declared outside
    this file whose answer is taken as it comes. *)
Record Device := {
  isValid : bool;
  is_OpticalDisc : bool;
  is_StorageVolume : bool;
  is_StorageDrive : bool;
  is_Camera : bool;
  is_PortableMediaPlayer : bool;
  as_StorageAccess : option StorageAccess;
  as_StorageDrive : option StorageDrive;
  as_Camera : option unit;
  as_PortableMediaPlayer : option unit;
  ancestor_OpticalDrive : option OpticalDrive;
  ancestor_StorageDrive : option StorageDrive;
}.

End Solid.

(** The environment of one call: the Solid backend and the clock. *)
Record Env := {
  Solid_Device : string -> Solid.Device;
  currentDateTimeUtc : Qt.QDateTime;
}.

(** ** The monitor's data *)

(** Modelled from the spec: the enumeration [DevicesStateMonitor::State]
    is declared in devicestatemonitor_p.h, which is not among the sources;
    the states are those the specification lists and the code names. *)
Inductive State :=
| NotPresent
| Idle
| Mounting
| MountDone
| Unmounting
| UnmountDone
| Checking
| CheckDone
| Repairing
| RepairDone.

#[global] Instance State_eq_dec : EqDecision State.
Proof. solve_decision. Defined.

Module DeviceInfo.

(** The record kept per device; its fields are those of the designated
    initialiser in [addMonitoringDevice]. *)
Record t := mk {
  isBusy : bool;
  isRemovable : bool;
  isMounted : bool;
  isChecked : bool;
  needRepair : bool;
  operationResult : Solid.ErrorType;
  operationInfo : Qt.QVariant;
  state : State;
  deviceTimeStamp : Qt.QDateTime;
}.

(** Assignments to one field ([it->field = v]). *)
Definition set_isBusy (v : bool) (i : t) : t :=
  mk v (isRemovable i) (isMounted i) (isChecked i) (needRepair i)
     (operationResult i) (operationInfo i) (state i) (deviceTimeStamp i).
Definition set_isRemovable (v : bool) (i : t) : t :=
  mk (isBusy i) v (isMounted i) (isChecked i) (needRepair i)
     (operationResult i) (operationInfo i) (state i) (deviceTimeStamp i).
Definition set_isMounted (v : bool) (i : t) : t :=
  mk (isBusy i) (isRemovable i) v (isChecked i) (needRepair i)
     (operationResult i) (operationInfo i) (state i) (deviceTimeStamp i).
Definition set_isChecked (v : bool) (i : t) : t :=
  mk (isBusy i) (isRemovable i) (isMounted i) v (needRepair i)
     (operationResult i) (operationInfo i) (state i) (deviceTimeStamp i).
Definition set_needRepair (v : bool) (i : t) : t :=
  mk (isBusy i) (isRemovable i) (isMounted i) (isChecked i) v
     (operationResult i) (operationInfo i) (state i) (deviceTimeStamp i).
Definition set_operationResult (v : Solid.ErrorType) (i : t) : t :=
  mk (isBusy i) (isRemovable i) (isMounted i) (isChecked i) (needRepair i)
     v (operationInfo i) (state i) (deviceTimeStamp i).
Definition set_operationInfo (v : Qt.QVariant) (i : t) : t :=
  mk (isBusy i) (isRemovable i) (isMounted i) (isChecked i) (needRepair i)
     (operationResult i) v (state i) (deviceTimeStamp i).
Definition set_state (v : State) (i : t) : t :=
  mk (isBusy i) (isRemovable i) (isMounted i) (isChecked i) (needRepair i)
     (operationResult i) (operationInfo i) v (deviceTimeStamp i).

#[global] Instance eq_dec : EqDecision t.
Proof. solve_decision. Defined.

End DeviceInfo.

(** ** Signal connections *)

(** The objects whose signals the monitor connects to: the storage access
    interface of a device, or an optical drive. *)
Inductive Sender :=
| StorageAccess_of (udi : string)
| OpticalDrive_of (udi : string).

Inductive Signal :=
| ejectRequested
| ejectDone
| accessibilityChanged
| setupRequested
| setupDone
| teardownRequested
| teardownDone
| checkRequested
| checkDone
| repairRequested
| repairDone.

Inductive Slot :=
| slot_setMountingState
| slot_setUnmountingState
| slot_setCheckingState
| slot_setRepairingState
| slot_setAccessibilityState
| slot_setIdleState.

Record Connection := {
  sender : Sender;
  signal : Signal;
  slot : Slot;
}.

#[global] Instance Sender_eq_dec : EqDecision Sender.
Proof. solve_decision. Defined.
#[global] Instance Signal_eq_dec : EqDecision Signal.
Proof. solve_decision. Defined.
#[global] Instance Slot_eq_dec : EqDecision Slot.
Proof. solve_decision. Defined.
#[global] Instance Connection_eq_dec : EqDecision Connection.
Proof. solve_decision. Defined.

(** The monitor object: the hash [m_devicesStates] and the connections
    whose receiver it is. *)
Record DevicesStateMonitor := {
  m_devicesStates : gmap string DeviceInfo.t;
  connections : list Connection;
}.

(** What a call does that an observer of the monitor can see, in the order
    in which it happens. *)
Inductive Effect :=
| Emplaced (udi : string)
| Erased (udi : string)
| Connected (c : Connection)
| Disconnected (s : Sender)
| Emitted_stateChanged (udi : string).

#[global] Instance Effect_eq_dec : EqDecision Effect.
Proof. solve_decision. Defined.

(** ** The monad of member functions

    A member function runs on the monitor, may change it, logs its effects
    and either returns or dereferences a null pointer. *)

Inductive outcome (A : Type) :=
| Returns (a : A)
| NullDereference.
Arguments Returns {A} a.
Arguments NullDereference {A}.

Definition M (A : Type) : Type :=
  DevicesStateMonitor -> outcome (A * DevicesStateMonitor * list Effect).

Definition ret {A} (a : A) : M A := fun s => Returns (a, s, []).

Definition bind {A B} (m : M A) (k : A -> M B) : M B :=
  fun s =>
    match m s with
    | Returns (a, s1, e1) =>
        match k a s1 with
        | Returns (b, s2, e2) => Returns (b, s2, e1 ++ e2)
        | NullDereference => NullDereference
        end
    | NullDereference => NullDereference
    end.

Declare Scope monitor_scope.
Delimit Scope monitor_scope with monitor.
Notation "x <- m ;; k" := (bind m (fun x => k))
  (at level 100, m at next level, right associativity) : monitor_scope.
Notation "m ;; k" := (bind m (fun _ => k))
  (at level 100, right associativity) : monitor_scope.
Local Open Scope monitor_scope.

(** [m_devicesStates.find(udi)] / [constFind(udi)]: the record the iterator
    points to, if any. *)
Definition find (udi : string) : M (option DeviceInfo.t) :=
  fun s => Returns (m_devicesStates s !! udi, s, []).

(** [m_devicesStates.emplace(udi, info)]. *)
Definition emplace (udi : string) (info : DeviceInfo.t) : M unit :=
  fun s =>
    Returns (tt, {| m_devicesStates := <[udi := info]> (m_devicesStates s);
                    connections := connections s |}, [Emplaced udi]).

(** [m_devicesStates.erase(it)]. *)
Definition erase (udi : string) : M unit :=
  fun s =>
    Returns (tt, {| m_devicesStates := delete udi (m_devicesStates s);
                    connections := connections s |}, [Erased udi]).

(** An assignment through the iterator, [it->field = v]. *)
Definition assign (udi : string) (f : DeviceInfo.t -> DeviceInfo.t) : M unit :=
  fun s =>
    Returns (tt, {| m_devicesStates := alter f udi (m_devicesStates s);
                    connections := connections s |}, []).

(** A read through the iterator, [it->field]; the iterator is valid where
    the code reads through it. *)
Definition read {A} (udi : string) (field : DeviceInfo.t -> A) : M A :=
  fun s =>
    match m_devicesStates s !! udi with
    | Some i => Returns (field i, s, [])
    | None => NullDereference
    end.

(** [connect(sender, signal, this, slot)]. *)
Definition connect (snd : Sender) (sig : Signal) (slt : Slot) : M unit :=
  fun s =>
    let c := {| sender := snd; signal := sig; slot := slt |} in
    Returns (tt, {| m_devicesStates := m_devicesStates s;
                    connections := connections s ++ [c] |}, [Connected c]).

(** [disconnect(sender, nullptr, this, nullptr)]: every connection from
    that sender to the monitor goes. *)
Definition disconnect (snd : Sender) : M unit :=
  fun s =>
    Returns (tt, {| m_devicesStates := m_devicesStates s;
                    connections :=
                      filter (fun c => sender c <> snd) (connections s) |},
             [Disconnected snd]).

(** [Q_EMIT stateChanged(udi)]. *)
Definition emit_stateChanged (udi : string) : M unit :=
  fun s => Returns (tt, s, [Emitted_stateChanged udi]).

(** [p->member] on a pointer that may be null. *)
Definition deref {A} (p : option A) : M A :=
  fun s =>
    match p with
    | Some a => Returns (a, s, [])
    | None => NullDereference
    end.

(** [if (c) { body }] without an else branch. *)
Definition when (c : bool) (body : M unit) : M unit :=
  if c then body else ret tt.

(** [if (p) { body }] on a pointer. *)
Definition when_ptr {A} (p : option A) (body : A -> M unit) : M unit :=
  match p with
  | Some a => body a
  | None => ret tt
  end.

(** ** Registration and deregistration *)

Definition addMonitoringDevice (env : Env) (udi : string) : M unit :=
  it <- find udi ;;
  match it with
  | Some _ => ret tt
  | None =>
      let device := Solid_Device env udi in
      let deviceInfo :=
        {| DeviceInfo.isBusy := false;
           DeviceInfo.isRemovable := false;
           DeviceInfo.isMounted := false;
           DeviceInfo.isChecked := false;
           DeviceInfo.needRepair := false;
           DeviceInfo.operationResult := Solid.NoError;
           DeviceInfo.operationInfo := Qt.QVariant_null;
           DeviceInfo.state := Idle;
           DeviceInfo.deviceTimeStamp := currentDateTimeUtc env |} in
      emplace udi deviceInfo ;;
      when (Solid.is_OpticalDisc device)
        (when_ptr (Solid.ancestor_OpticalDrive device) (fun drive =>
           let d := OpticalDrive_of (Solid.drive_udi drive) in
           connect d ejectRequested slot_setUnmountingState ;;
           connect d ejectDone slot_setIdleState)) ;;
      when (Solid.is_StorageVolume device)
        (when_ptr (Solid.as_StorageAccess device) (fun access =>
           let a := StorageAccess_of udi in
           connect a accessibilityChanged slot_setAccessibilityState ;;
           connect a setupRequested slot_setMountingState ;;
           connect a setupDone slot_setIdleState ;;
           connect a teardownRequested slot_setUnmountingState ;;
           connect a teardownDone slot_setIdleState ;;
           when (Solid.canCheck access)
             (connect a checkRequested slot_setCheckingState ;;
              connect a checkDone slot_setIdleState) ;;
           when (Solid.canRepair access)
             (connect a repairRequested slot_setRepairingState ;;
              connect a repairDone slot_setIdleState) ;;
           assign udi (DeviceInfo.set_isMounted (Solid.isAccessible access)))) ;;
      when (Solid.is_StorageDrive device)
        (when_ptr (Solid.as_StorageDrive device) (fun storagedrive =>
           assign udi (DeviceInfo.set_isRemovable (Solid.isRemovable storagedrive)))) ;;
      when_ptr (Solid.ancestor_StorageDrive device) (fun drive =>
        assign udi (DeviceInfo.set_isRemovable
                      (Solid.isRemovable drive || Solid.isHotpluggable drive))) ;;
      when (Solid.is_Camera device)
        (when_ptr (Solid.as_Camera device) (fun _ =>
           assign udi (DeviceInfo.set_isRemovable true))) ;;
      when (Solid.is_PortableMediaPlayer device)
        (when_ptr (Solid.as_PortableMediaPlayer device) (fun _ =>
           assign udi (DeviceInfo.set_isRemovable true))) ;;
      emit_stateChanged udi
  end.

Definition removeMonitoringDevice (env : Env) (udi : string) : M unit :=
  it <- find udi ;;
  match it with
  | Some _ =>
      erase udi ;;
      let device := Solid_Device env udi in
      (if Solid.is_StorageVolume device then
         when_ptr (Solid.as_StorageAccess device) (fun _ =>
           disconnect (StorageAccess_of udi))
       else
         when (Solid.is_OpticalDisc device)
           (when_ptr (Solid.ancestor_OpticalDrive device) (fun drive =>
              disconnect (OpticalDrive_of (Solid.drive_udi drive))))) ;;
      emit_stateChanged udi
  | None => ret tt
  end.

(** ** Queries *)

Definition isBusy (s : DevicesStateMonitor) (udi : string) : bool :=
  match m_devicesStates s !! udi with
  | Some it => DeviceInfo.isBusy it
  | None => false
  end.

Definition isRemovable (s : DevicesStateMonitor) (udi : string) : bool :=
  match m_devicesStates s !! udi with
  | Some it => DeviceInfo.isRemovable it
  | None => false
  end.

Definition isMounted (s : DevicesStateMonitor) (udi : string) : bool :=
  match m_devicesStates s !! udi with
  | Some it => DeviceInfo.isMounted it
  | None => false
  end.

Definition isChecked (s : DevicesStateMonitor) (udi : string) : bool :=
  match m_devicesStates s !! udi with
  | Some it => DeviceInfo.isChecked it
  | None => false
  end.

Definition needRepair (s : DevicesStateMonitor) (udi : string) : bool :=
  match m_devicesStates s !! udi with
  | Some it => DeviceInfo.needRepair it
  | None => false
  end.

Definition getDeviceTimeStamp (s : DevicesStateMonitor) (udi : string)
  : Qt.QDateTime :=
  match m_devicesStates s !! udi with
  | Some it => DeviceInfo.deviceTimeStamp it
  | None => Qt.QDateTime_null
  end.

Definition getState (s : DevicesStateMonitor) (udi : string) : State :=
  match m_devicesStates s !! udi with
  | Some it => DeviceInfo.state it
  | None => NotPresent
  end.

Definition getOperationResult (s : DevicesStateMonitor) (udi : string)
  : Solid.ErrorType :=
  match m_devicesStates s !! udi with
  | Some it => DeviceInfo.operationResult it
  | None => Solid.NoError
  end.

Definition getOperationInfo (s : DevicesStateMonitor) (udi : string)
  : Qt.QVariant :=
  match m_devicesStates s !! udi with
  | Some it => DeviceInfo.operationInfo it
  | None => Qt.QVariant_null
  end.

(** ** Slots *)

Definition setMountingState (udi : string) : M unit :=
  it <- find udi ;;
  match it with
  | Some _ =>
      assign udi (DeviceInfo.set_isBusy true) ;;
      assign udi (DeviceInfo.set_state Mounting) ;;
      emit_stateChanged udi
  | None => ret tt
  end.

Definition setUnmountingState (udi : string) : M unit :=
  it <- find udi ;;
  match it with
  | Some _ =>
      assign udi (DeviceInfo.set_isBusy true) ;;
      assign udi (DeviceInfo.set_state Unmounting) ;;
      emit_stateChanged udi
  | None => ret tt
  end.

Definition setCheckingState (udi : string) : M unit :=
  it <- find udi ;;
  match it with
  | Some _ =>
      assign udi (DeviceInfo.set_isBusy true) ;;
      assign udi (DeviceInfo.set_state Checking) ;;
      emit_stateChanged udi
  | None => ret tt
  end.

Definition setRepairingState (udi : string) : M unit :=
  it <- find udi ;;
  match it with
  | Some _ =>
      assign udi (DeviceInfo.set_isBusy true) ;;
      assign udi (DeviceInfo.set_state Repairing) ;;
      emit_stateChanged udi
  | None => ret tt
  end.

Definition setAccessibilityState (isAccessible : bool) (udi : string) : M unit :=
  it <- find udi ;;
  match it with
  | Some _ =>
      mounted <- read udi DeviceInfo.isMounted ;;
      when (bool_decide (mounted <> isAccessible))
        (assign udi (DeviceInfo.set_isMounted isAccessible) ;;
         emit_stateChanged udi)
  | None => ret tt
  end.

Definition setIdleState (env : Env) (operationResult : Solid.ErrorType)
    (operationInfo : Qt.QVariant) (udi : string) : M unit :=
  let device := Solid_Device env udi in
  if negb (Solid.isValid device) then ret tt
  else
    it <- find udi ;;
    match it with
    | Some _ =>
        assign udi (DeviceInfo.set_isBusy false) ;;
        assign udi (DeviceInfo.set_operationResult operationResult) ;;
        assign udi (DeviceInfo.set_operationInfo operationInfo) ;;
        st <- read udi DeviceInfo.state ;;
        match st with
        | Checking =>
            let access := Solid.as_StorageAccess device in
            assign udi (DeviceInfo.set_isChecked true) ;;
            repair <-
              (if bool_decide (operationResult = Solid.NoError) then
                 if negb (Qt.toBool operationInfo) then
                   a <- deref access ;; ret (Solid.canRepair a)
                 else ret false
               else ret false) ;;
            assign udi (DeviceInfo.set_needRepair repair) ;;
            assign udi (DeviceInfo.set_state CheckDone)
        | Repairing =>
            assign udi (DeviceInfo.set_needRepair
                          (bool_decide (operationResult <> Solid.NoError))) ;;
            assign udi (DeviceInfo.set_state RepairDone)
        | Mounting =>
            let access := Solid.as_StorageAccess device in
            a <- deref access ;;
            assign udi (DeviceInfo.set_isMounted (Solid.isAccessible a)) ;;
            assign udi (DeviceInfo.set_state MountDone)
        | Unmounting =>
            let access := Solid.as_StorageAccess device in
            a <- deref access ;;
            assign udi (DeviceInfo.set_isMounted (Solid.isAccessible a)) ;;
            assign udi (DeviceInfo.set_state UnmountDone)
        | _ => assign udi (DeviceInfo.set_state Idle)
        end ;;
        emit_stateChanged udi
    | None => ret tt
    end.

(** ** Sequences of calls *)

(** The calls the monitor receives: the two public slots for attach and
    detach, and the slots connected to Solid's signals. *)
Inductive Call :=
| call_addMonitoringDevice (udi : string)
| call_removeMonitoringDevice (udi : string)
| call_setMountingState (udi : string)
| call_setUnmountingState (udi : string)
| call_setCheckingState (udi : string)
| call_setRepairingState (udi : string)
| call_setAccessibilityState (isAccessible : bool) (udi : string)
| call_setIdleState (operationResult : Solid.ErrorType)
    (operationInfo : Qt.QVariant) (udi : string).

Definition call_udi (c : Call) : string :=
  match c with
  | call_addMonitoringDevice udi
  | call_removeMonitoringDevice udi
  | call_setMountingState udi
  | call_setUnmountingState udi
  | call_setCheckingState udi
  | call_setRepairingState udi
  | call_setAccessibilityState _ udi
  | call_setIdleState _ _ udi => udi
  end.

Definition invoke (env : Env) (c : Call) : M unit :=
  match c with
  | call_addMonitoringDevice udi => addMonitoringDevice env udi
  | call_removeMonitoringDevice udi => removeMonitoringDevice env udi
  | call_setMountingState udi => setMountingState udi
  | call_setUnmountingState udi => setUnmountingState udi
  | call_setCheckingState udi => setCheckingState udi
  | call_setRepairingState udi => setRepairingState udi
  | call_setAccessibilityState b udi => setAccessibilityState b udi
  | call_setIdleState r v udi => setIdleState env r v udi
  end.

(** The lifecycle events: every call but attach and detach. *)
Definition is_lifecycle (c : Call) : bool :=
  match c with
  | call_addMonitoringDevice _ | call_removeMonitoringDevice _ => false
  | _ => true
  end.

(** A sequence of calls, each in the environment of its time. *)
Fixpoint run (cs : list (Env * Call)) : M unit :=
  match cs with
  | [] => ret tt
  | (env, c) :: rest => invoke env c ;; run rest
  end.

(** The freshly constructed monitor. *)
Definition monitor_new : DevicesStateMonitor :=
  {| m_devicesStates := ∅; connections := [] |}.

(** The notifications among the effects of a call. *)
Definition notifications (es : list Effect) : list string :=
  omap (fun e => match e with Emitted_stateChanged u => Some u | _ => None end) es.

(** The states in which an operation is in flight. *)
Definition in_flight (st : State) : bool :=
  match st with
  | Mounting | Unmounting | Checking | Repairing => true
  | _ => false
  end.

(** ** The shared instance *)

(** The process around [instance()]: the monitors that are alive, by
    address, each with the number of shared pointers that own it (its use
    count); the static weak pointer [s_clip]; and the number of monitors
    constructed so far, which is the address of the next one. *)
Record Process := {
  alive : gmap nat (nat * DevicesStateMonitor);
  s_clip : option nat;
  constructed : nat;
}.

Definition process_start : Process :=
  {| alive := ∅; s_clip := None; constructed := 0 |}.

(** [s_clip.expired()]: the weak pointer was never assigned, or the monitor
    it observes has been destroyed. *)
Definition expired (p : Process) : bool :=
  match s_clip p with
  | Some a => bool_decide (alive p !! a = None)
  | None => true
  end.

(** [s_clip.lock()]: a shared pointer to the observed monitor, one more
    owner of it; the null pointer when there is none. *)
Definition lock (p : Process) : option nat * Process :=
  match s_clip p with
  | Some a =>
      match alive p !! a with
      | Some (n, m) =>
          (Some a, {| alive := <[a := (S n, m)]> (alive p);
                      s_clip := s_clip p;
                      constructed := constructed p |})
      | None => (None, p)
      end
  | None => (None, p)
  end.

(** [DevicesStateMonitor::instance()]; the result is the address the
    returned shared pointer holds, [None] for a null pointer. *)
Definition instance (p : Process) : option nat * Process :=
  if expired p then
    let ptr := constructed p in
    (Some ptr, {| alive := <[ptr := (1, monitor_new)]> (alive p);
                  s_clip := Some ptr;
                  constructed := S (constructed p) |})
  else lock p.

(** The destructor of a shared pointer that holds [a]: one owner less, and
    the monitor is destroyed with its last owner. *)
Definition release (a : nat) (p : Process) : Process :=
  match alive p !! a with
  | Some (S (S n), m) =>
      {| alive := <[a := (S n, m)]> (alive p);
         s_clip := s_clip p; constructed := constructed p |}
  | Some _ =>
      {| alive := delete a (alive p);
         s_clip := s_clip p; constructed := constructed p |}
  | None => p
  end.

(** The users of the monitor: each holds shared pointers obtained from
    [instance()], drops them, and calls the monitor through them. *)
Record World := {
  process : Process;
  handles : list nat;
}.

Inductive Use :=
| use_instance
| use_drop (k : nat)
| use_call (k : nat) (env : Env) (c : Call).

Definition world_start : World :=
  {| process := process_start; handles := [] |}.

(** One use; [None] when a call through a pointer fails. *)
Definition use (u : Use) (w : World) : option World :=
  match u with
  | use_instance =>
      let '(r, p) := instance (process w) in
      Some {| process := p;
              handles := handles w ++ from_option (fun a => [a]) [] r |}
  | use_drop k =>
      match handles w !! k with
      | Some a => Some {| process := release a (process w);
                          handles := delete k (handles w) |}
      | None => Some w
      end
  | use_call k env c =>
      match handles w !! k with
      | Some a =>
          match alive (process w) !! a with
          | Some (n, m) =>
              match invoke env c m with
              | Returns (_, m', _) =>
                  Some {| process :=
                            {| alive := <[a := (n, m')]> (alive (process w));
                               s_clip := s_clip (process w);
                               constructed := constructed (process w) |};
                          handles := handles w |}
              | NullDereference => None
              end
          | None => None
          end
      | None => Some w
      end
  end.

Fixpoint uses (us : list Use) (w : World) : option World :=
  match us with
  | [] => Some w
  | u :: rest =>
      match use u w with
      | Some w' => uses rest w'
      | None => None
      end
  end.

(** * Notions used in the statements *)

(** The answers of all queries for one identifier. *)
Definition observe (s : DevicesStateMonitor) (udi : string) :=
  (isBusy s udi, isRemovable s udi, isMounted s udi, isChecked s udi,
   needRepair s udi, getState s udi, getOperationResult s udi,
   getOperationInfo s udi, getDeviceTimeStamp s udi).

(** The answers the queries give for an identifier that is not tracked. *)
Definition defaults :=
  (false, false, false, false, false, NotPresent, Solid.NoError,
   Qt.QVariant_null, Qt.QDateTime_null).

(** Every record is busy exactly when its state is one with an operation
    in flight. *)
Definition records_consistent (s : DevicesStateMonitor) : Prop :=
  forall udi i,
    m_devicesStates s !! udi = Some i ->
    DeviceInfo.isBusy i = in_flight (DeviceInfo.state i).

(** Effects that neither discard a record nor release a connection. *)
Definition releases_nothing (e : Effect) : bool :=
  match e with
  | Disconnected _ | Erased _ => false
  | _ => true
  end.

(** The order of effects that has every release of connections before the
    record is discarded: nothing is disconnected once a record has been
    erased. *)
Fixpoint released_before_discard (es : list Effect) : bool :=
  match es with
  | [] => true
  | Erased _ :: rest =>
      forallb (fun e => match e with Disconnected _ => false | _ => true end) rest
  | _ :: rest => released_before_discard rest
  end.

(** What registration leaves in isRemovable (the four blocks that end
    [addMonitoringDevice]): a camera or a media player is removable;
    otherwise the ancestor drive decides, when there is one, by being
    removable or hotpluggable; otherwise the device's own drive interface
    decides, by being removable. *)
Definition removable_at_registration (device : Solid.Device) : bool :=
  (Solid.is_Camera device && bool_decide (is_Some (Solid.as_Camera device)))
  || (Solid.is_PortableMediaPlayer device
      && bool_decide (is_Some (Solid.as_PortableMediaPlayer device)))
  || match Solid.ancestor_StorageDrive device with
     | Some drive => Solid.isRemovable drive || Solid.isHotpluggable drive
     | None =>
         Solid.is_StorageDrive device
         && match Solid.as_StorageDrive device with
            | Some storagedrive => Solid.isRemovable storagedrive
            | None => false
            end
     end.

(** The specification's words for isRemovable: removable OR hotpluggable OR
    camera OR portable media player, where the storage drive is the device
    itself or the drive it sits on. *)
Definition union_of_conditions (device : Solid.Device) : bool :=
  let drive_is (p : Solid.StorageDrive -> bool) :=
    (Solid.is_StorageDrive device
     && from_option p false (Solid.as_StorageDrive device))
    || from_option p false (Solid.ancestor_StorageDrive device) in
  drive_is Solid.isRemovable
  || drive_is Solid.isHotpluggable
  || (Solid.is_Camera device && bool_decide (is_Some (Solid.as_Camera device)))
  || (Solid.is_PortableMediaPlayer device
      && bool_decide (is_Some (Solid.as_PortableMediaPlayer device))).

(** The connections a registration makes, read off the [connect] calls of
    [addMonitoringDevice]: to the ancestor optical drive of an optical
    disc, and to the storage access interface of a storage volume. *)
Definition optical_subscriptions (device : Solid.Device) : list Connection :=
  if Solid.is_OpticalDisc device then
    match Solid.ancestor_OpticalDrive device with
    | Some drive =>
        let d := OpticalDrive_of (Solid.drive_udi drive) in
        [ {| sender := d; signal := ejectRequested;
             slot := slot_setUnmountingState |};
          {| sender := d; signal := ejectDone; slot := slot_setIdleState |} ]
    | None => []
    end
  else [].

Definition access_subscriptions (device : Solid.Device) (udi : string)
  : list Connection :=
  if Solid.is_StorageVolume device then
    match Solid.as_StorageAccess device with
    | Some access =>
        let a := StorageAccess_of udi in
        [ {| sender := a; signal := accessibilityChanged;
             slot := slot_setAccessibilityState |};
          {| sender := a; signal := setupRequested;
             slot := slot_setMountingState |};
          {| sender := a; signal := setupDone; slot := slot_setIdleState |};
          {| sender := a; signal := teardownRequested;
             slot := slot_setUnmountingState |};
          {| sender := a; signal := teardownDone; slot := slot_setIdleState |} ]
        ++ (if Solid.canCheck access then
              [ {| sender := a; signal := checkRequested;
                   slot := slot_setCheckingState |};
                {| sender := a; signal := checkDone;
                   slot := slot_setIdleState |} ]
            else [])
        ++ (if Solid.canRepair access then
              [ {| sender := a; signal := repairRequested;
                   slot := slot_setRepairingState |};
                {| sender := a; signal := repairDone;
                   slot := slot_setIdleState |} ]
            else [])
    | None => []
    end
  else [].

(** The event streams bound to a device: the connections its registration
    makes. *)
Definition subscriptions (device : Solid.Device) (udi : string)
  : list Connection :=
  optical_subscriptions device ++ access_subscriptions device udi.

(** A storage volume that is at the same time an optical disc in a drive:
    registration subscribes to the drive and, when there is one, to the
    storage access interface. *)
Definition volume_on_optical_disc (device : Solid.Device) : bool :=
  Solid.is_StorageVolume device && Solid.is_OpticalDisc device
  && bool_decide (is_Some (Solid.ancestor_OpticalDrive device)).

(** Every record has the subscriptions of its device connected, the device
    being what [solid] says. *)
Definition subscriptions_active (solid : string -> Solid.Device)
    (s : DevicesStateMonitor) : Prop :=
  forall udi c,
    is_Some (m_devicesStates s !! udi) ->
    c ∈ subscriptions (solid udi) udi -> c ∈ connections s.

(** Solid answers a registration as [solid] does, and a deregistration as
    [solid] does or as for a device that is gone, with none of the
    interfaces the monitor subscribes to. *)
Definition answers_as (solid : string -> Solid.Device) (ec : Env * Call)
  : Prop :=
  match ec.2 with
  | call_addMonitoringDevice udi => Solid_Device ec.1 udi = solid udi
  | call_removeMonitoringDevice udi =>
      Solid_Device ec.1 udi = solid udi
      \/ subscriptions (Solid_Device ec.1 udi) udi = []
  | _ => True
  end.

(** No interface object serves two devices. *)
Definition senders_not_shared (solid : string -> Solid.Device) : Prop :=
  forall u1 u2 c1 c2,
    u1 <> u2 ->
    c1 ∈ subscriptions (solid u1) u1 ->
    c2 ∈ subscriptions (solid u2) u2 ->
    sender c1 <> sender c2.

(** A block that only assigns through the iterator of [udi], connects
    signals and emits: [f] is what it does to the record, [cs] what it
    connects, [es] its effects. *)
Definition acts (udi : string) (c : M unit)
    (f : DeviceInfo.t -> DeviceInfo.t) (cs : list Connection)
    (es : list Effect) : Prop :=
  forall s,
    c s = Returns (tt,
                   {| m_devicesStates := alter f udi (m_devicesStates s);
                      connections := connections s ++ cs |},
                   es).

(** An update of the record that leaves the field [p] alone. *)
Definition keeps {B} (p : DeviceInfo.t -> B)
    (g : DeviceInfo.t -> DeviceInfo.t) : Prop :=
  forall y, p (g y) = p y.

(** ** Devices and sessions of the examples *)

(** The storage access interface of a mounted file system that can be
    checked and repaired. *)
Definition mounted_access : Solid.StorageAccess :=
  {| Solid.canCheck := true; Solid.canRepair := true;
     Solid.isAccessible := true |}.

(** A mounted volume on a removable drive. *)
Definition usb_volume : Solid.Device :=
  {| Solid.isValid := true;
     Solid.is_OpticalDisc := false;
     Solid.is_StorageVolume := true;
     Solid.is_StorageDrive := false;
     Solid.is_Camera := false;
     Solid.is_PortableMediaPlayer := false;
     Solid.as_StorageAccess := Some mounted_access;
     Solid.as_StorageDrive := None;
     Solid.as_Camera := None;
     Solid.as_PortableMediaPlayer := None;
     Solid.ancestor_OpticalDrive := None;
     Solid.ancestor_StorageDrive :=
       Some {| Solid.isRemovable := true; Solid.isHotpluggable := true |} |}.

(** The same volume once its file system is gone (wiped, say): the device
    is still there, its storage access interface is not. *)
Definition usb_volume_without_access : Solid.Device :=
  {| Solid.isValid := true;
     Solid.is_OpticalDisc := false;
     Solid.is_StorageVolume := true;
     Solid.is_StorageDrive := false;
     Solid.is_Camera := false;
     Solid.is_PortableMediaPlayer := false;
     Solid.as_StorageAccess := None;
     Solid.as_StorageDrive := None;
     Solid.as_Camera := None;
     Solid.as_PortableMediaPlayer := None;
     Solid.ancestor_OpticalDrive := None;
     Solid.ancestor_StorageDrive :=
       Some {| Solid.isRemovable := true; Solid.isHotpluggable := true |} |}.

(** What Solid answers for an identifier whose device is gone. *)
Definition detached : Solid.Device :=
  {| Solid.isValid := false;
     Solid.is_OpticalDisc := false;
     Solid.is_StorageVolume := false;
     Solid.is_StorageDrive := false;
     Solid.is_Camera := false;
     Solid.is_PortableMediaPlayer := false;
     Solid.as_StorageAccess := None;
     Solid.as_StorageDrive := None;
     Solid.as_Camera := None;
     Solid.as_PortableMediaPlayer := None;
     Solid.ancestor_OpticalDrive := None;
     Solid.ancestor_StorageDrive := None |}.

(** An audio disc: an optical disc in a drive, without a file system to
    mount, so without a storage access interface. *)
Definition audio_disc : Solid.Device :=
  {| Solid.isValid := true;
     Solid.is_OpticalDisc := true;
     Solid.is_StorageVolume := true;
     Solid.is_StorageDrive := false;
     Solid.is_Camera := false;
     Solid.is_PortableMediaPlayer := false;
     Solid.as_StorageAccess := None;
     Solid.as_StorageDrive := None;
     Solid.as_Camera := None;
     Solid.as_PortableMediaPlayer := None;
     Solid.ancestor_OpticalDrive := Some {| Solid.drive_udi := "drive-0" |};
     Solid.ancestor_StorageDrive :=
       Some {| Solid.isRemovable := true; Solid.isHotpluggable := false |} |}.

(** An external hard disk, as a drive device: it can be unplugged while the
    system runs, but its medium cannot be taken out. *)
Definition usb_hard_disk : Solid.Device :=
  {| Solid.isValid := true;
     Solid.is_OpticalDisc := false;
     Solid.is_StorageVolume := false;
     Solid.is_StorageDrive := true;
     Solid.is_Camera := false;
     Solid.is_PortableMediaPlayer := false;
     Solid.as_StorageAccess := None;
     Solid.as_StorageDrive :=
       Some {| Solid.isRemovable := false; Solid.isHotpluggable := true |};
     Solid.as_Camera := None;
     Solid.as_PortableMediaPlayer := None;
     Solid.ancestor_OpticalDrive := None;
     Solid.ancestor_StorageDrive := None |}.

(** The environment in which every identifier names the device [d] and the
    clock reads [t]. *)
Definition at_time (t : Z) (d : Solid.Device) : Env :=
  {| Solid_Device := fun _ => d; currentDateTimeUtc := Qt.QDateTime_utc t |}.

(** The monitor after a sequence of calls on a fresh one, and what the
    sequence logged. *)
Definition after (cs : list (Env * Call)) : DevicesStateMonitor :=
  match run cs monitor_new with
  | Returns (_, s, _) => s
  | NullDereference => monitor_new
  end.

Definition effects_of (cs : list (Env * Call)) : list Effect :=
  match run cs monitor_new with
  | Returns (_, _, es) => es
  | NullDereference => []
  end.

(** The volume is attached, mounted as it is. *)
Definition volume_attached : list (Env * Call) :=
  [ (at_time 1000 usb_volume, call_addMonitoringDevice "udi-1") ].

(** A mount of it is requested. *)
Definition mount_requested : Env * Call :=
  (at_time 2000 usb_volume, call_setMountingState "udi-1").

(** It is reported inaccessible. *)
Definition volume_unmounted : Env * Call :=
  (at_time 2000 usb_volume, call_setAccessibilityState false "udi-1").

(** It is detached. *)
Definition volume_removed : Env * Call :=
  (at_time 2000 usb_volume, call_removeMonitoringDevice "udi-1").

(** The volume is attached and a check of its file system starts. *)
Definition check_requested : list (Env * Call) :=
  volume_attached
  ++ [ (at_time 2000 usb_volume, call_setCheckingState "udi-1") ].

(** Its record at that point. *)
Definition checking_record : DeviceInfo.t :=
  {| DeviceInfo.isBusy := true;
     DeviceInfo.isRemovable := true;
     DeviceInfo.isMounted := true;
     DeviceInfo.isChecked := false;
     DeviceInfo.needRepair := false;
     DeviceInfo.operationResult := Solid.NoError;
     DeviceInfo.operationInfo := Qt.QVariant_null;
     DeviceInfo.state := Checking;
     DeviceInfo.deviceTimeStamp := Qt.QDateTime_utc 1000 |}.

(** The volume is attached and its mounting starts; when the mount is
    reported done, the device no longer has a storage access interface. *)
Definition interface_lost_while_mounting : list (Env * Call) :=
  volume_attached
  ++ [ mount_requested;
       (at_time 3000 usb_volume_without_access,
        call_setIdleState Solid.NoError Qt.QVariant_null "udi-1") ].

(** An audio disc is inserted; an eject is announced for it, and the eject
    completes. *)
Definition audio_disc_ejected : list (Env * Call) :=
  [ (at_time 1000 audio_disc, call_addMonitoringDevice "udi-1");
    (at_time 2000 audio_disc, call_setUnmountingState "udi-1");
    (at_time 3000 audio_disc,
     call_setIdleState Solid.NoError Qt.QVariant_null "udi-1") ].

(** A blank disc in a drive: an optical disc with no volume on it. *)
Definition blank_disc : Solid.Device :=
  {| Solid.isValid := true;
     Solid.is_OpticalDisc := true;
     Solid.is_StorageVolume := false;
     Solid.is_StorageDrive := false;
     Solid.is_Camera := false;
     Solid.is_PortableMediaPlayer := false;
     Solid.as_StorageAccess := None;
     Solid.as_StorageDrive := None;
     Solid.as_Camera := None;
     Solid.as_PortableMediaPlayer := None;
     Solid.ancestor_OpticalDrive := Some {| Solid.drive_udi := "drive-0" |};
     Solid.ancestor_StorageDrive :=
       Some {| Solid.isRemovable := true; Solid.isHotpluggable := false |} |}.

(** A machine on which "udi-2" names the blank disc and every other
    identifier the volume. *)
Definition volume_and_disc (udi : string) : Solid.Device :=
  if bool_decide (udi = "udi-2"%string) then blank_disc else usb_volume.

(** The volume is attached; the disc is inserted and taken out again. *)
Definition disc_comes_and_goes : list (Env * Call) :=
  [ ({| Solid_Device := volume_and_disc;
        currentDateTimeUtc := Qt.QDateTime_utc 1000 |},
     call_addMonitoringDevice "udi-1");
    ({| Solid_Device := volume_and_disc;
        currentDateTimeUtc := Qt.QDateTime_utc 2000 |},
     call_addMonitoringDevice "udi-2");
    ({| Solid_Device := volume_and_disc;
        currentDateTimeUtc := Qt.QDateTime_utc 3000 |},
     call_removeMonitoringDevice "udi-2") ].

(** ** Notions of the further properties *)

(** Whether [udi] is registered after the calls [cs], read off the calls
    alone: the last registration or deregistration of [udi] decides. *)
Definition registered_after (cs : list (Env * Call)) (udi : string) : bool :=
  fold_left
    (fun b ec =>
       match ec.2 with
       | call_addMonitoringDevice u => if decide (u = udi) then true else b
       | call_removeMonitoringDevice u => if decide (u = udi) then false else b
       | _ => b
       end)
    cs false.

(** The one way a call can fail: the completion of an operation, for a
    device that is tracked and valid but has no storage access interface,
    in a state whose branch reads through the interface. *)
Definition dereferences_null (env : Env) (c : Call) (s : DevicesStateMonitor)
  : Prop :=
  exists r v udi i,
    c = call_setIdleState r v udi
    /\ Solid.isValid (Solid_Device env udi) = true
    /\ m_devicesStates s !! udi = Some i
    /\ Solid.as_StorageAccess (Solid_Device env udi) = None
    /\ (DeviceInfo.state i = Mounting \/ DeviceInfo.state i = Unmounting
        \/ (DeviceInfo.state i = Checking /\ r = Solid.NoError
            /\ Qt.toBool v = false)).

(** A completion that cannot fail, whatever the monitor holds: the device
    is not valid, or it exposes its storage access interface. *)
Definition completion_safe (ec : Env * Call) : bool :=
  match ec.2 with
  | call_setIdleState _ _ udi =>
      let device := Solid_Device ec.1 udi in
      negb (Solid.isValid device)
      || bool_decide (is_Some (Solid.as_StorageAccess device))
  | _ => true
  end.

(** The state a request puts the device in. *)
Definition requested_state (c : Call) : option State :=
  match c with
  | call_setMountingState _ => Some Mounting
  | call_setUnmountingState _ => Some Unmounting
  | call_setCheckingState _ => Some Checking
  | call_setRepairingState _ => Some Repairing
  | _ => None
  end.

(** The state the completion of an operation leaves, by the state it
    finds: the chain of tests on [it->state] in [setIdleState]. *)
Definition done_marker (st : State) : State :=
  match st with
  | Checking => CheckDone
  | Repairing => RepairDone
  | Mounting => MountDone
  | Unmounting => UnmountDone
  | _ => Idle
  end.

(** No record carries the state that stands for no record. *)
Definition records_present (s : DevicesStateMonitor) : Prop :=
  forall udi i,
    m_devicesStates s !! udi = Some i -> DeviceInfo.state i <> NotPresent.

(** The check of the volume completes; then it is unmounted and mounted
    again. *)
Definition checked_then_remounted : list (Env * Call) :=
  [ (at_time 4000 usb_volume, call_setUnmountingState "udi-1");
    (at_time 5000 usb_volume,
     call_setIdleState Solid.NoError Qt.QVariant_null "udi-1");
    (at_time 6000 usb_volume, call_setMountingState "udi-1");
    (at_time 7000 usb_volume,
     call_setIdleState Solid.NoError Qt.QVariant_null "udi-1") ].

Definition check_completed : list (Env * Call) :=
  check_requested
  ++ [ (at_time 3000 usb_volume,
        call_setIdleState Solid.NoError (Qt.QVariant_bool true) "udi-1") ].

(** The signal that reports the end of the operation a signal announces. *)
Definition completion_of (sig : Signal) : option Signal :=
  match sig with
  | ejectRequested => Some ejectDone
  | setupRequested => Some setupDone
  | teardownRequested => Some teardownDone
  | checkRequested => Some checkDone
  | repairRequested => Some repairDone
  | _ => None
  end.

(** Every connected announcement of an operation has the completion of
    that operation connected too, from the same sender, to [setIdleState]. *)
Definition completions_connected (cs : list Connection) : Prop :=
  forall c done,
    c ∈ cs -> completion_of (signal c) = Some done ->
    {| sender := sender c; signal := done; slot := slot_setIdleState |} ∈ cs.

(** There is one monitor, or none: either no pointer is held and no
    monitor is alive, or every pointer held is to the monitor [s_clip]
    observes, which is the only one alive and has as many owners as there
    are pointers held. *)
Definition single_instance (w : World) : Prop :=
  (handles w = [] /\ alive (process w) = ∅)
  \/ exists a n m,
       s_clip (process w) = Some a
       /\ handles w = replicate (S n) a
       /\ alive (process w) = {[ a := (S n, m) ]}.

(** Two users obtain the monitor; one registers a volume and drops its
    pointer; the other still holds the monitor. *)
Definition two_users : list Use :=
  [ use_instance; use_instance;
    use_call 0 (at_time 1000 usb_volume) (call_addMonitoringDevice "udi-1");
    use_drop 0 ].

(** * Reasoning about member functions *)

Ltac unfold_monad :=
  unfold bind, ret, find, emplace, erase, assign, read, connect, disconnect,
    emit_stateChanged, deref, when, when_ptr.

Lemma monitor_eta s :
  {| m_devicesStates := m_devicesStates s; connections := connections s |} = s.
Proof. by destruct s. Qed.

Lemma bind_Returns {A B} (m : M A) (k : A -> M B) s b s' es :
  (x <- m ;; k x) s = Returns (b, s', es) ->
  exists a s1 e1 e2,
    m s = Returns (a, s1, e1) /\ k a s1 = Returns (b, s', e2) /\ es = e1 ++ e2.
Proof.
  unfold bind. destruct (m s) as [[[a s1] e1]|]; [|done].
  destruct (k a s1) as [[[b' s2] e2]|] eqn:K; [|done].
  intros [= -> -> <-]. by exists a, s1, e1, e2.
Qed.

Lemma alter_tracked (f : DeviceInfo.t -> DeviceInfo.t)
    (m : gmap string DeviceInfo.t) udi i :
  m !! udi = Some i -> alter f udi m = <[udi := f i]> m.
Proof. apply alter_alt_Some. Qed.

(** ** Blocks that assign, connect and emit *)

Section Acts.
Context (udi : string).

Lemma acts_ret : acts udi (ret tt) id [] [].
Proof.
  intros s. unfold ret. rewrite alter_id by done.
  rewrite app_nil_r. by rewrite monitor_eta.
Qed.

Lemma acts_assign f : acts udi (assign udi f) f [] [].
Proof. intros s. unfold assign. by rewrite app_nil_r. Qed.

Lemma acts_connect snd sig slt :
  acts udi (connect snd sig slt) id
    [{| sender := snd; signal := sig; slot := slt |}]
    [Connected {| sender := snd; signal := sig; slot := slt |}].
Proof. intros s. unfold connect. by rewrite alter_id. Qed.

Lemma acts_emit :
  acts udi (emit_stateChanged udi) id [] [Emitted_stateChanged udi].
Proof.
  intros s. unfold emit_stateChanged. rewrite alter_id by done.
  rewrite app_nil_r. by rewrite monitor_eta.
Qed.

Lemma acts_bind c1 c2 f1 f2 cs1 cs2 es1 es2 :
  acts udi c1 f1 cs1 es1 -> acts udi c2 f2 cs2 es2 ->
  acts udi (c1 ;; c2) (f2 ∘ f1) (cs1 ++ cs2) (es1 ++ es2).
Proof.
  intros H1 H2 s. unfold bind. rewrite H1, H2. simpl.
  rewrite alter_alter_eq, <- app_assoc. done.
Qed.

Lemma acts_when (b : bool) c f cs es :
  acts udi c f cs es ->
  acts udi (when b c) (if b then f else id) (if b then cs else [])
    (if b then es else []).
Proof. destruct b; simpl; [auto | intros _; apply acts_ret]. Qed.

Lemma acts_when_ptr {A} (p : option A) c f cs es :
  (forall a, acts udi (c a) (f a) (cs a) (es a)) ->
  acts udi (when_ptr p c)
    (match p with Some a => f a | None => id end)
    (match p with Some a => cs a | None => [] end)
    (match p with Some a => es a | None => [] end).
Proof. destruct p; simpl; [auto | intros _; apply acts_ret]. Qed.

(** Guarded assignments connect nothing and have no effect to log. *)
Lemma acts_when_quiet (b : bool) c f :
  acts udi c f [] [] ->
  acts udi (when b c) (if b then f else id) [] [].
Proof. destruct b; simpl; [auto | intros _; apply acts_ret]. Qed.

Lemma acts_when_ptr_quiet {A} (p : option A) c f :
  (forall a, acts udi (c a) (f a) [] []) ->
  acts udi (when_ptr p c) (match p with Some a => f a | None => id end) [] [].
Proof. destruct p; simpl; [auto | intros _; apply acts_ret]. Qed.

End Acts.

Ltac acts_step :=
  first
    [ eapply acts_bind
    | eapply acts_when_quiet; solve [repeat acts_step]
    | eapply acts_when_ptr_quiet; intros ?; solve [repeat acts_step]
    | eapply acts_when
    | eapply acts_when_ptr; intros ?
    | eapply acts_assign
    | eapply acts_connect
    | eapply acts_emit
    | eapply acts_ret ].

Section Keeps.
Context {B : Type} (p : DeviceInfo.t -> B).

Lemma keeps_id : keeps p id.
Proof. by intros y. Qed.

Lemma keeps_compose g1 g2 : keeps p g1 -> keeps p g2 -> keeps p (g2 ∘ g1).
Proof. intros H1 H2 y. simpl. by rewrite H2, H1. Qed.

Lemma keeps_apply g y : keeps p g -> p (g y) = p y.
Proof. intros H. apply H. Qed.

End Keeps.

Ltac solve_keeps :=
  repeat lazymatch goal with
    | |- keeps _ (_ ∘ _) => apply keeps_compose
    | |- keeps _ (if ?b then _ else id) => destruct b
    | |- keeps _ (match ?o with Some _ => _ | None => id end) => destruct o
    | |- keeps _ id => apply keeps_id
    | |- keeps _ _ => intros ?; reflexivity
    end.

(** ** Registration and deregistration, in closed form *)

Lemma addMonitoringDevice_tracked env udi s i :
  m_devicesStates s !! udi = Some i ->
  addMonitoringDevice env udi s = Returns (tt, s, []).
Proof.
  intros E. unfold addMonitoringDevice, bind, find. by rewrite E.
Qed.

Lemma addMonitoringDevice_untracked env udi s :
  m_devicesStates s !! udi = None ->
  exists i cs es,
    addMonitoringDevice env udi s =
      Returns (tt,
               {| m_devicesStates := <[udi := i]> (m_devicesStates s);
                  connections := connections s ++ cs |},
               Emplaced udi :: es)
    /\ notifications es = [udi]
    /\ forallb releases_nothing es = true
    /\ DeviceInfo.isBusy i = false
    /\ DeviceInfo.state i = Idle
    /\ DeviceInfo.isChecked i = false
    /\ DeviceInfo.needRepair i = false
    /\ DeviceInfo.operationResult i = Solid.NoError
    /\ DeviceInfo.operationInfo i = Qt.QVariant_null
    /\ DeviceInfo.deviceTimeStamp i = currentDateTimeUtc env
    /\ DeviceInfo.isMounted i =
         (let device := Solid_Device env udi in
          Solid.is_StorageVolume device
          && match Solid.as_StorageAccess device with
             | Some access => Solid.isAccessible access
             | None => false
             end)
    /\ DeviceInfo.isRemovable i =
         removable_at_registration (Solid_Device env udi).
Proof.
  intros E.
  unfold addMonitoringDevice, removable_at_registration.
  unfold bind at 1. unfold find at 1. rewrite E.
  unfold bind at 1. unfold emplace at 1.
  set (dev := Solid_Device env udi). clearbody dev.
  evar (optical : DeviceInfo.t -> DeviceInfo.t).
  evar (access : DeviceInfo.t -> DeviceInfo.t).
  evar (removable : DeviceInfo.t -> DeviceInfo.t).
  evar (cs : list Connection).
  evar (es : list Effect).
  match goal with
  | |- context [ match ?c ?s0 with Returns _ => _ | NullDereference => _ end ] =>
      assert (H : acts udi c ((removable ∘ access) ∘ optical) cs es)
  end.
  { subst cs es. eapply acts_bind; [ subst optical; repeat acts_step | ].
    eapply acts_bind; [ subst access | subst removable ]; repeat acts_step. }
  rewrite H. cbn [m_devicesStates connections]. rewrite alter_insert_eq.
  eexists _, cs, es. split; [reflexivity|]. clear H.
  cbn [compose].
  match goal with
  | |- context [ optical ?i ] => set (i0 := i)
  end.
  assert (Hnot : forallb releases_nothing es = true /\ notifications es = [udi]).
  { subst es. clear.
    destruct (Solid.is_OpticalDisc dev), (Solid.ancestor_OpticalDrive dev),
      (Solid.is_StorageVolume dev), (Solid.as_StorageAccess dev) as [[[] [] ?]|];
      done. }
  destruct Hnot as [Hrel Hnot].
  assert (Ho : optical i0 = i0).
  { subst optical. clear.
    by destruct (Solid.is_OpticalDisc dev), (Solid.ancestor_OpticalDrive dev). }
  rewrite Ho. clear Ho optical.
  assert (Hm : DeviceInfo.isMounted (access i0) =
               Solid.is_StorageVolume dev
               && match Solid.as_StorageAccess dev with
                  | Some a => Solid.isAccessible a
                  | None => false
                  end).
  { subst access. clear.
    by destruct (Solid.is_StorageVolume dev),
      (Solid.as_StorageAccess dev) as [[[] [] ?]|]. }
  assert (Hr : DeviceInfo.isRemovable (access i0) = false)
    by (rewrite (keeps_apply DeviceInfo.isRemovable access)
          by (subst access; solve_keeps); done).
  repeat match goal with
  | |- context [ ?p (removable ?y) ] =>
      lazymatch p with
      | DeviceInfo.isRemovable => fail
      | _ => rewrite (keeps_apply p removable y) by (subst removable; solve_keeps)
      end
  end.
  repeat match goal with
  | |- context [ ?p (access ?y) ] =>
      lazymatch p with
      | DeviceInfo.isMounted => fail
      | _ => rewrite (keeps_apply p access y) by (subst access; solve_keeps)
      end
  end.
  rewrite Hm. cbn zeta.
  repeat (split; [done|]).
  generalize dependent (access i0). intros y _ Hy. subst removable.
  clear -Hy. cbn [compose id].
  destruct (Solid.is_PortableMediaPlayer dev), (Solid.as_PortableMediaPlayer dev),
    (Solid.is_Camera dev), (Solid.as_Camera dev),
    (Solid.ancestor_StorageDrive dev), (Solid.is_StorageDrive dev),
    (Solid.as_StorageDrive dev); cbn; rewrite ?Hy, ?orb_true_r; reflexivity.
Qed.

Lemma removeMonitoringDevice_untracked env udi s :
  m_devicesStates s !! udi = None ->
  removeMonitoringDevice env udi s = Returns (tt, s, []).
Proof.
  intros E. unfold removeMonitoringDevice, bind, find. by rewrite E.
Qed.

Lemma removeMonitoringDevice_tracked env udi s i :
  m_devicesStates s !! udi = Some i ->
  exists released,
    removeMonitoringDevice env udi s =
      Returns (tt,
               {| m_devicesStates := delete udi (m_devicesStates s);
                  connections :=
                    match released with
                    | Some snd => filter (fun c => sender c <> snd) (connections s)
                    | None => connections s
                    end |},
               Erased udi
                 :: match released with
                    | Some snd => [Disconnected snd]
                    | None => []
                    end ++ [Emitted_stateChanged udi])
    /\ released =
         (let device := Solid_Device env udi in
          if Solid.is_StorageVolume device then
            match Solid.as_StorageAccess device with
            | Some _ => Some (StorageAccess_of udi)
            | None => None
            end
          else if Solid.is_OpticalDisc device then
            match Solid.ancestor_OpticalDrive device with
            | Some drive => Some (OpticalDrive_of (Solid.drive_udi drive))
            | None => None
            end
          else None).
Proof.
  intros E. eexists. split; [|reflexivity].
  unfold removeMonitoringDevice. unfold_monad. cbn. rewrite E.
  set (dev := Solid_Device env udi). clearbody dev.
  destruct (Solid.is_StorageVolume dev), (Solid.as_StorageAccess dev),
    (Solid.is_OpticalDisc dev), (Solid.ancestor_OpticalDrive dev); reflexivity.
Qed.

Lemma addMonitoringDevice_connections env udi s :
  m_devicesStates s !! udi = None ->
  exists m' es,
    addMonitoringDevice env udi s =
      Returns (tt,
               {| m_devicesStates := m';
                  connections :=
                    connections s
                    ++ optical_subscriptions (Solid_Device env udi)
                    ++ access_subscriptions (Solid_Device env udi) udi |},
               es).
Proof.
  intros E.
  unfold addMonitoringDevice, optical_subscriptions, access_subscriptions.
  unfold bind at 1. unfold find at 1. rewrite E.
  unfold bind at 1. unfold emplace at 1.
  set (dev := Solid_Device env udi). clearbody dev.
  evar (f : DeviceInfo.t -> DeviceInfo.t).
  evar (cs : list Connection).
  evar (es : list Effect).
  match goal with
  | |- context [ match ?c ?s0 with Returns _ => _ | NullDereference => _ end ] =>
      assert (H : acts udi c f cs es) by (subst f cs es; repeat acts_step)
  end.
  rewrite H. cbn [m_devicesStates connections].
  eexists _, _. f_equal. f_equal. f_equal. f_equal. f_equal.
  subst cs. clear.
  destruct (Solid.is_OpticalDisc dev), (Solid.ancestor_OpticalDrive dev),
    (Solid.is_StorageVolume dev), (Solid.as_StorageAccess dev) as [[[] [] ?]|];
    reflexivity.
Qed.

(** ** The slots *)

Ltac run_slot E :=
  unfold_monad; cbn;
  repeat first
    [ rewrite E
    | rewrite lookup_alter_eq
    | rewrite alter_alter_eq ];
  cbn.

Lemma slot_untracked env c s :
  is_lifecycle c = true ->
  m_devicesStates s !! call_udi c = None ->
  invoke env c s = Returns (tt, s, []).
Proof.
  intros L E. destruct c; try discriminate; cbn in E |- *.
  1-5: unfold setMountingState, setUnmountingState, setCheckingState,
         setRepairingState, setAccessibilityState, bind, find; by rewrite E.
  unfold setIdleState. destruct (negb _); [done|].
  unfold bind, find. by rewrite E.
Qed.

(** What a lifecycle event does when it does anything: it rewrites the
    record of its device and emits once. *)
Lemma lifecycle_step env c s s' es :
  is_lifecycle c = true ->
  invoke env c s = Returns (tt, s', es) ->
  (s' = s /\ es = []) \/
  exists i i',
    m_devicesStates s !! call_udi c = Some i
    /\ s' = {| m_devicesStates := <[call_udi c := i']> (m_devicesStates s);
               connections := connections s |}
    /\ es = [Emitted_stateChanged (call_udi c)]
    /\ DeviceInfo.isRemovable i' = DeviceInfo.isRemovable i
    /\ DeviceInfo.deviceTimeStamp i' = DeviceInfo.deviceTimeStamp i
    /\ (DeviceInfo.isBusy i = in_flight (DeviceInfo.state i) ->
        DeviceInfo.isBusy i' = in_flight (DeviceInfo.state i')).
Proof.
  intros L H.
  destruct (m_devicesStates s !! call_udi c) as [i|] eqn:E.
  2: { rewrite slot_untracked in H by done. left. by injection H as <- <-. }
  destruct c as [| |udi|udi|udi|udi|b udi|r v udi]; try discriminate;
    cbn in E, H.
  1-4: unfold setMountingState, setUnmountingState, setCheckingState,
         setRepairingState in H; revert H; run_slot E;
       rewrite (alter_tracked _ _ _ _ E); intros [= <- <-];
       right; by eexists _, _.
  - unfold setAccessibilityState in H. revert H. run_slot E.
    case_bool_decide; cbn.
    + rewrite (alter_tracked _ _ _ _ E). intros [= <- <-].
      right. by eexists _, _.
    + intros [= <- <-]. by left.
  - unfold setIdleState in H. revert H.
    destruct (Solid.isValid _); cbn; [|intros [= <- <-]; by left].
    run_slot E.
    destruct (DeviceInfo.state i) eqn:St,
      (Solid.as_StorageAccess (Solid_Device env udi)) as [a|],
      (bool_decide (r = Solid.NoError)), (Qt.toBool v);
      cbn; rewrite ?alter_alter_eq, ?(alter_tracked _ _ _ _ E);
      try discriminate; intros [= <- <-]; right; by eexists _, _.
Qed.

(** The completion of an operation dereferences a null pointer when the
    device is tracked and valid but has no storage access interface, and
    its state is Mounting or Unmounting, or Checking with a check that
    succeeded and reported problems. *)
Lemma setIdleState_null_access env r v udi s i :
  m_devicesStates s !! udi = Some i ->
  Solid.isValid (Solid_Device env udi) = true ->
  Solid.as_StorageAccess (Solid_Device env udi) = None ->
  DeviceInfo.state i = Mounting \/ DeviceInfo.state i = Unmounting
  \/ (DeviceInfo.state i = Checking /\ r = Solid.NoError /\ Qt.toBool v = false) ->
  setIdleState env r v udi s = NullDereference.
Proof.
  intros E V A St. unfold setIdleState. rewrite V, A. cbn. run_slot E.
  destruct St as [->|[->|(-> & -> & ->)]]; reflexivity.
Qed.

(** Every call that returns either changed nothing and logged nothing, or
    emitted [stateChanged] once, for its own device. *)
Lemma invoke_notifies env c s s' es :
  invoke env c s = Returns (tt, s', es) ->
  (s' = s /\ es = []) \/ notifications es = [call_udi c].
Proof.
  intros H. destruct (is_lifecycle c) eqn:L.
  - destruct (lifecycle_step _ _ _ _ _ L H)
      as [?|(i & i' & _ & _ & -> & _)]; [by left | by right].
  - destruct c as [udi|udi| | | | | |]; try discriminate; cbn [invoke] in H;
      destruct (m_devicesStates s !! udi) as [i|] eqn:E.
    + rewrite (addMonitoringDevice_tracked _ _ _ _ E) in H.
      left. by injection H as <- <-.
    + destruct (addMonitoringDevice_untracked env _ _ E)
        as (i & cs & es' & Hadd & Hn & _).
      rewrite Hadd in H. injection H as <- <-. by right.
    + destruct (removeMonitoringDevice_tracked env _ _ _ E) as (rel & Hrm & _).
      rewrite Hrm in H. injection H as <- <-. right. by destruct rel.
    + rewrite (removeMonitoringDevice_untracked _ _ _ E) in H.
      left. by injection H as <- <-.
Qed.

Ltac members :=
  repeat match goal with
    | H : _ ∈ [] |- _ => by apply elem_of_nil in H
    | H : _ ∈ _ :: _ |- _ => apply elem_of_cons in H as [->|H]
    end.

Ltac member :=
  cbn; repeat first [ apply list_elem_of_here | apply list_elem_of_further ].

(** ** The subscriptions of a device *)

Lemma filter_not_released (released : option Sender) (cs : list Connection) :
  match released with
  | Some snd => filter (fun c => sender c <> snd) cs
  | None => cs
  end = filter (fun c => sender c ∉ option_list released) cs.
Proof.
  destruct released as [snd|]; cbn.
  - apply list_filter_iff. intros c. by rewrite list_elem_of_singleton.
  - induction cs as [|c cs IH]; [done|].
    rewrite filter_cons, decide_True by apply not_elem_of_nil. by rewrite <- IH.
Qed.

(** Deregistration of a tracked device: the record goes first, then the
    connections of the senders it releases, then the notification.  The
    senders released are among those the device is subscribed to; the
    storage access interface is always one of them, and they are all of
    them unless the device is a volume on an optical disc. *)
Lemma removeMonitoringDevice_releases env udi s i :
  m_devicesStates s !! udi = Some i ->
  exists released,
    removeMonitoringDevice env udi s =
      Returns (tt,
               {| m_devicesStates := delete udi (m_devicesStates s);
                  connections :=
                    filter (fun c => sender c ∉ released) (connections s) |},
               Erased udi :: (Disconnected <$> released)
                 ++ [Emitted_stateChanged udi])
    /\ released ⊆ sender <$> subscriptions (Solid_Device env udi) udi
    /\ sender <$> access_subscriptions (Solid_Device env udi) udi ⊆ released
    /\ (volume_on_optical_disc (Solid_Device env udi) = false ->
        sender <$> subscriptions (Solid_Device env udi) udi ⊆ released).
Proof.
  intros E.
  destruct (removeMonitoringDevice_tracked env _ _ _ E) as (rel & -> & Hrel).
  exists (option_list rel). split.
  { rewrite filter_not_released. by destruct rel. }
  subst rel.
  unfold subscriptions, optical_subscriptions, access_subscriptions,
    volume_on_optical_disc.
  set (dev := Solid_Device env udi). clearbody dev. cbn zeta.
  destruct (Solid.is_StorageVolume dev),
    (Solid.as_StorageAccess dev) as [[[] [] ?]|],
    (Solid.is_OpticalDisc dev), (Solid.ancestor_OpticalDrive dev) as [drive|];
    cbn; (split; [|split; [|intros ?; try discriminate]]);
    intros x Hx; members; member.
Qed.

(** A call keeps the subscriptions of every record connected, when Solid
    answers it as [solid] does, or as for a device that is gone, and no
    sender serves two devices. *)
Lemma subscriptions_active_invoke solid env c s s' es :
  invoke env c s = Returns (tt, s', es) ->
  answers_as solid (env, c) ->
  senders_not_shared solid ->
  subscriptions_active solid s -> subscriptions_active solid s'.
Proof.
  intros H Ha Hn Inv udi x Ht Hx.
  destruct (is_lifecycle c) eqn:L.
  - destruct (lifecycle_step _ _ _ _ _ L H)
      as [[-> _]|(i & i' & E & -> & _)]; [by eapply Inv|].
    cbn in *. eapply Inv; [|exact Hx].
    rewrite lookup_insert in Ht. case_decide; [subst; by rewrite E | done].
  - destruct c as [u|u| | | | | |]; try discriminate;
      cbn [invoke] in H; unfold answers_as in Ha; cbn in Ha;
      destruct (m_devicesStates s !! u) as [i|] eqn:E.
    + rewrite (addMonitoringDevice_tracked _ _ _ _ E) in H.
      injection H as <- <-. by eapply Inv.
    + destruct (addMonitoringDevice_untracked env _ _ E)
        as (i & cs & es' & Hadd & _).
      destruct (addMonitoringDevice_connections env _ _ E) as (m' & es'' & Hadd').
      rewrite Hadd in Hadd'. injection Hadd' as Hm Hcs _.
      rewrite Hadd in H. injection H as <- <-. cbn in *.
      rewrite Hcs, Ha. apply elem_of_app.
      destruct (decide (u = udi)) as [->|Hne]; [by right | left].
      eapply Inv; [|exact Hx]. by rewrite lookup_insert_ne in Ht.
    + destruct (removeMonitoringDevice_releases env _ _ _ E)
        as (released & Hrm & Hsub & _).
      rewrite Hrm in H. injection H as <- <-. cbn in *.
      rewrite lookup_delete in Ht. case_decide as Hne; [by destruct Ht|].
      apply list_elem_of_filter. split; [|by eapply Inv].
      intros Hr. apply Hsub in Hr. destruct Ha as [Ha|Ha]; rewrite Ha in Hr.
      * apply list_elem_of_fmap in Hr as (y & Hs & Hy).
        by eapply (Hn udi u x y).
      * by apply elem_of_nil in Hr.
    + rewrite (removeMonitoringDevice_untracked _ _ _ E) in H.
      injection H as <- <-. by eapply Inv.
Qed.

Lemma subscriptions_active_run solid cs s s' es :
  run cs s = Returns (tt, s', es) ->
  Forall (answers_as solid) cs ->
  senders_not_shared solid ->
  subscriptions_active solid s -> subscriptions_active solid s'.
Proof.
  intros H Ha Hn. revert s es H.
  induction Ha as [|[env c] cs Hc _ IH]; intros s es H Inv.
  - by injection H as <- <-.
  - cbn in H. apply bind_Returns in H as ([] & s1 & e1 & e2 & H1 & H2 & _).
    eapply IH; [exact H2|]. by eapply subscriptions_active_invoke.
Qed.

(** ** The invariant of the records *)

Lemma records_consistent_new : records_consistent monitor_new.
Proof. intros udi i. unfold monitor_new. cbn. by rewrite lookup_empty. Qed.

Lemma records_consistent_invoke env c s s' es :
  records_consistent s ->
  invoke env c s = Returns (tt, s', es) ->
  records_consistent s'.
Proof.
  intros Inv H.
  destruct (is_lifecycle c) eqn:L.
  - destruct (lifecycle_step _ _ _ _ _ L H)
      as [[-> _]|(i & i' & E & -> & _ & _ & _ & Hb)]; [done|].
    intros u j. cbn. rewrite lookup_insert.
    case_decide; [intros [= <-]; eauto | apply Inv].
  - destruct c as [udi|udi| | | | | |]; try discriminate; cbn [invoke] in H.
    + destruct (m_devicesStates s !! udi) as [i|] eqn:E.
      * rewrite (addMonitoringDevice_tracked _ _ _ _ E) in H.
        by injection H as <- <-.
      * destruct (addMonitoringDevice_untracked env _ _ E)
          as (i & cs & es' & Hadd & _ & _ & Hb & Hst & _).
        rewrite Hadd in H. injection H as <- <-.
        intros u j. cbn. rewrite lookup_insert.
        case_decide; [intros [= <-]; by rewrite Hb, Hst | apply Inv].
    + destruct (m_devicesStates s !! udi) as [i|] eqn:E.
      * destruct (removeMonitoringDevice_tracked env _ _ _ E) as (rel & Hrm & _).
        rewrite Hrm in H. injection H as <- <-.
        intros u j. cbn. rewrite lookup_delete.
        case_decide; [done | apply Inv].
      * rewrite (removeMonitoringDevice_untracked _ _ _ E) in H.
        by injection H as <- <-.
Qed.

Lemma records_consistent_run cs s s' es :
  records_consistent s ->
  run cs s = Returns (tt, s', es) ->
  records_consistent s'.
Proof.
  revert s es. induction cs as [|[env c] cs IH]; intros s es Inv H.
  - by injection H as <- <-.
  - cbn in H. apply bind_Returns in H as ([] & s1 & e1 & e2 & H1 & H2 & _).
    eapply IH; [|exact H2]. eapply records_consistent_invoke; eauto.
Qed.

Lemma in_flight_spec st :
  in_flight st = true <-> st ∈ [Mounting; Unmounting; Checking; Repairing].
Proof.
  rewrite !elem_of_cons, elem_of_nil. split.
  - destruct st; try discriminate; intros _; auto.
  - by intros [->|[->|[->|[->|[]]]]].
Qed.

Lemma observe_untracked s udi :
  m_devicesStates s !! udi = None -> observe s udi = defaults.
Proof.
  intros E. unfold observe, isBusy, isRemovable, isMounted, isChecked,
    needRepair, getState, getOperationResult, getOperationInfo,
    getDeviceTimeStamp. by rewrite E.
Qed.

(** * The specification's properties *)

(** C1: after any sequence of registrations, deregistrations and lifecycle
    events that the fresh monitor has completed, [isBusy(udi)] is true
    exactly when [getState(udi)] is one of Mounting, Unmounting, Checking and
    Repairing, for every identifier; for an untracked one [isBusy] is false
    and the state is NotPresent. *)
Theorem isBusy_iff_operation_in_flight cs s es udi :
  run cs monitor_new = Returns (tt, s, es) ->
  (isBusy s udi = true <->
   getState s udi ∈ [Mounting; Unmounting; Checking; Repairing])
  /\ (m_devicesStates s !! udi = None ->
      isBusy s udi = false /\ getState s udi = NotPresent).
Proof.
  intros H.
  pose proof (records_consistent_run _ _ _ _ records_consistent_new H) as Inv.
  rewrite <- in_flight_spec. unfold isBusy, getState.
  destruct (m_devicesStates s !! udi) as [i|] eqn:E.
  - by rewrite (Inv _ _ E).
  - done.
Qed.

Lemma isBusy_iff_operation_in_flight_witness :
  (isBusy (after check_requested) "udi-1" = true <->
   getState (after check_requested) "udi-1"
     ∈ [Mounting; Unmounting; Checking; Repairing])
  /\ (m_devicesStates (after check_requested) !! "udi-1" = None ->
      isBusy (after check_requested) "udi-1" = false
      /\ getState (after check_requested) "udi-1" = NotPresent).
Proof.
  apply (isBusy_iff_operation_in_flight check_requested
           (after check_requested) (effects_of check_requested)).
  vm_compute. reflexivity.
Defined.

(** C2 (as amended): for a tracked device whose state is Checking and which
    Solid still reports as valid, the completion of the check with result
    [r] and payload [v] returns, emits one notification and leaves the state
    CheckDone, isBusy false, isChecked true and needRepair equal to
    [!v.toBool() && access->canRepair()] when [r] is NoError and false
    otherwise; this where the storage access interface is there when it is
    consulted, that is when [r] is NoError and [v.toBool()] is false. *)
Theorem checkDone_on_valid_device env r v udi s i :
  m_devicesStates s !! udi = Some i ->
  DeviceInfo.state i = Checking ->
  Solid.isValid (Solid_Device env udi) = true ->
  (r = Solid.NoError -> Qt.toBool v = false ->
   is_Some (Solid.as_StorageAccess (Solid_Device env udi))) ->
  exists s',
    setIdleState env r v udi s = Returns (tt, s', [Emitted_stateChanged udi])
    /\ getState s' udi = CheckDone
    /\ isBusy s' udi = false
    /\ isChecked s' udi = true
    /\ needRepair s' udi =
         (if decide (r = Solid.NoError)
          then negb (Qt.toBool v)
               && from_option Solid.canRepair false
                    (Solid.as_StorageAccess (Solid_Device env udi))
          else false)
    /\ getOperationResult s' udi = r
    /\ getOperationInfo s' udi = v
    /\ (r = Solid.NoError -> Qt.toBool v = true -> needRepair s' udi = false)
    /\ (forall access,
          r = Solid.NoError -> Qt.toBool v = false ->
          Solid.as_StorageAccess (Solid_Device env udi) = Some access ->
          Solid.canRepair access = true ->
          needRepair s' udi = true).
Proof.
  intros E St V A. unfold setIdleState. rewrite V. cbn.
  run_slot E. rewrite St. cbn.
  unfold getState, isBusy, isChecked, needRepair, getOperationResult,
    getOperationInfo.
  destruct (decide (r = Solid.NoError)) as [Hr|Hr].
  - rewrite bool_decide_true by done.
    destruct (Qt.toBool v) eqn:Hv; cbn.
    + rewrite ?alter_alter_eq. eexists. split; [reflexivity|]. cbn.
      rewrite lookup_alter_eq, E. cbn. by repeat split.
    + destruct (A Hr eq_refl) as [access ->]. cbn.
      rewrite ?alter_alter_eq. eexists. split; [reflexivity|]. cbn.
      rewrite lookup_alter_eq, E. cbn. repeat split; try done.
      by intros a _ _ [= ->] ->.
  - rewrite bool_decide_false by done. cbn.
    rewrite ?alter_alter_eq. eexists. split; [reflexivity|]. cbn.
    rewrite lookup_alter_eq, E. cbn. by repeat split.
Qed.

Lemma checkDone_on_valid_device_witness :
  exists s',
    setIdleState (at_time 3000 usb_volume) Solid.NoError
      (Qt.QVariant_bool false) "udi-1" (after check_requested)
    = Returns (tt, s', [Emitted_stateChanged "udi-1"])
    /\ getState s' "udi-1" = CheckDone
    /\ isBusy s' "udi-1" = false
    /\ isChecked s' "udi-1" = true
    /\ needRepair s' "udi-1" = true
    /\ getOperationResult s' "udi-1" = Solid.NoError
    /\ getOperationInfo s' "udi-1" = Qt.QVariant_bool false.
Proof.
  destruct (checkDone_on_valid_device (at_time 3000 usb_volume) Solid.NoError
              (Qt.QVariant_bool false) "udi-1" (after check_requested)
              checking_record)
    as (s' & Hrun & Hstate & Hbusy & Hchecked & Hrepair & Hres & Hinfo & _).
  - vm_compute. reflexivity.
  - reflexivity.
  - reflexivity.
  - intros _ _. exists mounted_access. reflexivity.
  - exists s'. repeat split; assumption.
Defined.

(** The check of a tracked volume completes after the volume was pulled:
    the event changes nothing, the state stays Checking. *)
Lemma checkDone_ignored_when_detached :
  getState (after check_requested) "udi-1" = Checking
  /\ setIdleState (at_time 3000 detached) Solid.NoError (Qt.QVariant_bool true)
       "udi-1" (after check_requested)
     = Returns (tt, after check_requested, [])
  /\ getState (after check_requested) "udi-1" <> CheckDone
  /\ isBusy (after check_requested) "udi-1" = true
  /\ isChecked (after check_requested) "udi-1" = false.
Proof. repeat split; try (vm_compute; reflexivity). discriminate. Qed.

(** C3: registering [udi] and then unregistering it returns, and afterwards
    every query on [udi] gives its default; when [udi] was not tracked
    before, the records are those from before the registration.  For an
    identifier that is not tracked every query gives its default. *)
Theorem register_unregister_round_trip env1 env2 udi s :
  exists s' es,
    (addMonitoringDevice env1 udi ;; removeMonitoringDevice env2 udi) s
    = Returns (tt, s', es)
    /\ observe s' udi = defaults
    /\ (m_devicesStates s !! udi = None ->
        m_devicesStates s' = m_devicesStates s)
    /\ (forall other,
          m_devicesStates s !! other = None -> observe s other = defaults).
Proof.
  unfold bind.
  destruct (m_devicesStates s !! udi) as [i|] eqn:E.
  - rewrite (addMonitoringDevice_tracked _ _ _ _ E).
    destruct (removeMonitoringDevice_tracked env2 _ _ _ E) as (rel & -> & _).
    eexists _, _. split; [reflexivity|]. split; [|split; [done|]].
    + apply observe_untracked. cbn. apply lookup_delete_eq.
    + apply observe_untracked.
  - destruct (addMonitoringDevice_untracked env1 _ _ E)
      as (i & cs & es & -> & _).
    match goal with
    | |- context [ removeMonitoringDevice env2 udi ?s1 ] =>
        destruct (removeMonitoringDevice_tracked env2 udi s1 i) as (rel & -> & _);
          [cbn; apply lookup_insert_eq|]
    end.
    eexists _, _. split; [reflexivity|]. cbn. split; [|split].
    + apply observe_untracked. cbn. apply lookup_delete_eq.
    + intros _. rewrite delete_insert_eq. by apply delete_id.
    + apply observe_untracked.
Qed.

Lemma register_unregister_round_trip_witness :
  exists s' es,
    (addMonitoringDevice (at_time 1000 usb_volume) "udi-1" ;;
     removeMonitoringDevice (at_time 2000 detached) "udi-1") monitor_new
    = Returns (tt, s', es)
    /\ observe s' "udi-1" = defaults
    /\ (m_devicesStates monitor_new !! "udi-1" = None ->
        m_devicesStates s' = m_devicesStates monitor_new)
    /\ (forall other,
          m_devicesStates monitor_new !! other = None ->
          observe monitor_new other = defaults).
Proof.
  exact (register_unregister_round_trip (at_time 1000 usb_volume)
           (at_time 2000 detached) "udi-1" monitor_new).
Defined.

(** C4: a call that returns and changed the monitor emitted [stateChanged]
    exactly once, with the identifier of its device (otherwise it changed
    nothing and emitted nothing); registration of an untracked device and
    deregistration of a tracked one emit exactly once; and
    [accessibilityChanged(v)] for a tracked device sets isMounted to [v] and
    emits once when isMounted differed from [v], and changes and emits
    nothing when it was [v] already. *)
Theorem stateChanged_once_per_mutation env c s s' es :
  invoke env c s = Returns (tt, s', es) ->
  ((s' = s /\ es = []) \/ notifications es = [call_udi c])
  /\ (forall udi,
        c = call_addMonitoringDevice udi ->
        m_devicesStates s !! udi = None -> notifications es = [udi])
  /\ (forall udi,
        c = call_removeMonitoringDevice udi ->
        is_Some (m_devicesStates s !! udi) -> notifications es = [udi])
  /\ (forall v udi,
        c = call_setAccessibilityState v udi ->
        is_Some (m_devicesStates s !! udi) ->
        if bool_decide (isMounted s udi = v)
        then s' = s /\ es = []
        else isMounted s' udi = v /\ es = [Emitted_stateChanged udi]).
Proof.
  intros H. split; [by eapply invoke_notifies|]. repeat split.
  - intros udi -> E. cbn [invoke] in H.
    destruct (addMonitoringDevice_untracked env _ _ E)
      as (i & cs & es' & Hadd & Hn & _).
    rewrite Hadd in H. by injection H as <- <-.
  - intros udi -> [i E]. cbn [invoke] in H.
    destruct (removeMonitoringDevice_tracked env _ _ _ E) as (rel & Hrm & _).
    rewrite Hrm in H. injection H as <- <-. by destruct rel.
  - intros v udi -> [i E]. cbn [invoke] in H. revert H.
    unfold setAccessibilityState, isMounted. run_slot E.
    destruct (DeviceInfo.isMounted i) eqn:Hm, v; cbn; intros [= <- <-];
      cbn; rewrite ?lookup_alter_eq, ?E; done.
Qed.

Lemma stateChanged_once_per_mutation_witness :
  isMounted (after volume_attached) "udi-1" = true
  /\ isMounted (after (volume_attached ++ [volume_unmounted])) "udi-1" = false
  /\ effects_of (volume_attached ++ [volume_unmounted])
     = effects_of volume_attached ++ [Emitted_stateChanged "udi-1"]
  /\ effects_of (volume_attached ++ [volume_unmounted; volume_unmounted])
     = effects_of (volume_attached ++ [volume_unmounted]).
Proof.
  destruct (stateChanged_once_per_mutation
              (volume_unmounted.1) (volume_unmounted.2)
              (after volume_attached)
              (after (volume_attached ++ [volume_unmounted]))
              [Emitted_stateChanged "udi-1"])
    as (_ & _ & _ & Hacc); [vm_compute; reflexivity|].
  specialize (Hacc false "udi-1" eq_refl (ex_intro _ _ eq_refl)).
  split; [vm_compute; reflexivity|].
  split; [exact (proj1 Hacc)|].
  split; vm_compute; reflexivity.
Defined.

(** C5: an operation-done event for a device that Solid no longer reports as
    valid, and any lifecycle event for an identifier that is not tracked,
    returns, leaves the monitor as it was and emits nothing. *)
Theorem stale_and_unknown_events_ignored env c s :
  is_lifecycle c = true ->
  (m_devicesStates s !! call_udi c = None
   \/ exists r v udi,
        c = call_setIdleState r v udi
        /\ Solid.isValid (Solid_Device env udi) = false) ->
  invoke env c s = Returns (tt, s, []).
Proof.
  intros L [E|(r & v & udi & -> & V)].
  - by apply slot_untracked.
  - cbn. unfold setIdleState. by rewrite V.
Qed.

Lemma stale_and_unknown_events_ignored_witness :
  invoke (at_time 3000 detached)
    (call_setIdleState Solid.NoError (Qt.QVariant_bool true) "udi-1")
    (after check_requested)
  = Returns (tt, after check_requested, []).
Proof.
  apply stale_and_unknown_events_ignored; [reflexivity|].
  right. by exists Solid.NoError, (Qt.QVariant_bool true), "udi-1".
Defined.

(** C6: [addMonitoringDevice] on a tracked identifier returns without
    changing the monitor and without emitting; so registering twice in a row
    is registering once: same monitor, same effects. *)
Theorem addMonitoringDevice_idempotent env1 env2 udi s :
  (is_Some (m_devicesStates s !! udi) ->
   addMonitoringDevice env2 udi s = Returns (tt, s, []))
  /\ (addMonitoringDevice env1 udi ;; addMonitoringDevice env2 udi) s
     = addMonitoringDevice env1 udi s.
Proof.
  split.
  - intros [i E]. by eapply addMonitoringDevice_tracked.
  - unfold bind. destruct (m_devicesStates s !! udi) as [i|] eqn:E.
    + by rewrite !(addMonitoringDevice_tracked _ _ _ _ E).
    + destruct (addMonitoringDevice_untracked env1 _ _ E)
        as (i & cs & es & -> & _).
      erewrite addMonitoringDevice_tracked by (cbn; apply lookup_insert_eq).
      by rewrite app_nil_r.
Qed.

Lemma addMonitoringDevice_idempotent_witness :
  addMonitoringDevice (at_time 2000 usb_hard_disk) "udi-1" (after volume_attached)
  = Returns (tt, after volume_attached, []).
Proof.
  apply (addMonitoringDevice_idempotent (at_time 1000 usb_volume)).
  vm_compute. eauto.
Defined.

(** Detaching the tracked volume erases its record first and disconnects
    its storage access interface afterwards; and attaching it creates its
    record before the first connection is made. *)
Lemma unregister_releases_after_discard :
  effects_of (volume_attached ++ [volume_removed])
  = effects_of volume_attached
    ++ [Erased "udi-1"; Disconnected (StorageAccess_of "udi-1");
        Emitted_stateChanged "udi-1"]
  /\ released_before_discard
       [Erased "udi-1"; Disconnected (StorageAccess_of "udi-1");
        Emitted_stateChanged "udi-1"] = false
  /\ take 2 (effects_of volume_attached)
     = [Emplaced "udi-1";
        Connected {| sender := StorageAccess_of "udi-1";
                     signal := accessibilityChanged;
                     slot := slot_setAccessibilityState |}].
Proof. repeat split; vm_compute; reflexivity. Qed.

(** C7 (as amended): [removeMonitoringDevice] on a tracked identifier first
    discards the record, then tears down event streams, sender by sender,
    then emits [stateChanged] exactly once; on an untracked identifier it
    does nothing.  The senders it disconnects are senders of the event
    streams bound to that identifier (the connections registration makes
    for the device as Solid describes it at that call); the storage access
    interface is always among them, and they are all of them, unless the
    device is a storage volume on an optical disc in a drive: for such a
    device it is left open whether the streams of the drive go too.  No
    other call discards a record or releases a connection: registration of
    an untracked identifier adds the event streams bound to it, and nothing
    else changes the connections.  And whenever the monitor has completed
    a sequence of calls, every record that exists has its event streams
    connected, where Solid describes a device at its deregistration as at
    its registration, or as gone, and no sender serves two devices. *)
Theorem unregister_discards_then_releases :
  (forall env udi s,
     (m_devicesStates s !! udi = None ->
      removeMonitoringDevice env udi s = Returns (tt, s, []))
     /\ (is_Some (m_devicesStates s !! udi) ->
         exists released,
           removeMonitoringDevice env udi s =
             Returns (tt,
                      {| m_devicesStates := delete udi (m_devicesStates s);
                         connections :=
                           filter (fun c => sender c ∉ released)
                             (connections s) |},
                      Erased udi :: (Disconnected <$> released)
                        ++ [Emitted_stateChanged udi])
           /\ released ⊆ sender <$> subscriptions (Solid_Device env udi) udi
           /\ sender <$> access_subscriptions (Solid_Device env udi) udi
              ⊆ released
           /\ (volume_on_optical_disc (Solid_Device env udi) = false ->
               sender <$> subscriptions (Solid_Device env udi) udi
               ⊆ released)))
  /\ (forall env c s s' es,
        invoke env c s = Returns (tt, s', es) ->
        (forall udi, c <> call_removeMonitoringDevice udi) ->
        forallb releases_nothing es = true
        /\ (forall udi,
              is_Some (m_devicesStates s !! udi) ->
              is_Some (m_devicesStates s' !! udi))
        /\ connections s'
           = connections s
             ++ match c with
                | call_addMonitoringDevice udi =>
                    match m_devicesStates s !! udi with
                    | None => subscriptions (Solid_Device env udi) udi
                    | Some _ => []
                    end
                | _ => []
                end)
  /\ (forall solid cs s es,
        run cs monitor_new = Returns (tt, s, es) ->
        Forall (answers_as solid) cs ->
        senders_not_shared solid ->
        subscriptions_active solid s).
Proof.
  split; [|split].
  - intros env udi s. split; [apply removeMonitoringDevice_untracked|].
    intros [i E]. by eapply removeMonitoringDevice_releases.
  - intros env c s s' es H Hc. destruct (is_lifecycle c) eqn:L.
    + assert (G : forallb releases_nothing es = true
                  /\ (forall udi,
                        is_Some (m_devicesStates s !! udi) ->
                        is_Some (m_devicesStates s' !! udi))
                  /\ connections s' = connections s ++ []).
      { rewrite app_nil_r.
        destruct (lifecycle_step _ _ _ _ _ L H)
          as [[-> ->]|(i & i' & E & -> & -> & _)]; [done|].
        split; [done|]. split; [|done]. intros udi Ht. cbn.
        rewrite lookup_insert. by case_decide. }
      by destruct c.
    + destruct c as [u|u| | | | | |]; try discriminate; [|by destruct (Hc u)].
      cbn [invoke] in H. destruct (m_devicesStates s !! u) as [i|] eqn:E.
      * rewrite (addMonitoringDevice_tracked _ _ _ _ E) in H.
        injection H as <- <-. by rewrite app_nil_r.
      * destruct (addMonitoringDevice_untracked env _ _ E)
          as (i & cs & es' & Hadd & _ & Hrel & _).
        destruct (addMonitoringDevice_connections env _ _ E)
          as (m' & es'' & Hadd').
        rewrite Hadd in Hadd'. injection Hadd' as Hm Hcs _.
        rewrite Hadd in H. injection H as <- <-. cbn.
        split; [done|]. split; [|by rewrite Hcs].
        intros udi Ht. rewrite lookup_insert. by case_decide.
  - intros solid cs s es H Ha Hn.
    eapply subscriptions_active_run; [exact H | done | done |].
    intros udi c [i Hi]. cbn in Hi. by rewrite lookup_empty in Hi.
Qed.

Lemma unregister_discards_then_releases_witness :
  (exists released,
     removeMonitoringDevice (volume_removed.1) "udi-1" (after volume_attached) =
       Returns (tt,
                {| m_devicesStates :=
                     delete "udi-1" (m_devicesStates (after volume_attached));
                   connections :=
                     filter (fun c => sender c ∉ released)
                       (connections (after volume_attached)) |},
                Erased "udi-1" :: (Disconnected <$> released)
                  ++ [Emitted_stateChanged "udi-1"])
     /\ released ⊆ sender <$> subscriptions usb_volume "udi-1"
     /\ sender <$> subscriptions usb_volume "udi-1" ⊆ released)
  /\ (forallb releases_nothing (effects_of volume_attached) = true
      /\ connections (after volume_attached)
         = subscriptions usb_volume "udi-1")
  /\ subscriptions_active volume_and_disc (after disc_comes_and_goes).
Proof.
  destruct unregister_discards_then_releases as (Hremove & Hothers & Hactive).
  split; [|split].
  - destruct (proj2 (Hremove (volume_removed.1) "udi-1" (after volume_attached)))
      as (released & Hrm & Hsub & _ & Hall); [vm_compute; eauto|].
    exists released. split; [exact Hrm|]. split; [exact Hsub|].
    apply Hall. reflexivity.
  - destruct (Hothers (at_time 1000 usb_volume)
                (call_addMonitoringDevice "udi-1") monitor_new
                (after volume_attached) (effects_of volume_attached))
      as (Hrel & _ & Hcs); [vm_compute; reflexivity | discriminate |].
    split; [exact Hrel | exact Hcs].
  - apply (Hactive volume_and_disc disc_comes_and_goes
             (after disc_comes_and_goes) (effects_of disc_comes_and_goes)).
    + vm_compute. reflexivity.
    + repeat constructor.
    + intros u1 u2 c1 c2 Hne H1 H2. unfold volume_and_disc in H1, H2.
      repeat case_bool_decide; subst; cbn in H1, H2; members; cbn; congruence.
Defined.

(** C8 (fails on the code): the completion of an operation on a tracked,
    valid device that has no storage access interface dereferences the null
    pointer that [device.as<Solid::StorageAccess>()] returns: a mount that
    completes after the volume lost the interface, and an eject of an audio
    disc. *)
Theorem operation_done_without_storage_access :
  run interface_lost_while_mounting monitor_new = NullDereference
  /\ run audio_disc_ejected monitor_new = NullDereference.
Proof. split; vm_compute; reflexivity. Qed.

(** The volume is attached at 1000 and goes from Idle to Mounting at 2000;
    its time stamp still reads 1000. *)
Lemma deviceTimeStamp_not_refreshed :
  getState (after volume_attached) "udi-1" = Idle
  /\ getState (after (volume_attached ++ [mount_requested])) "udi-1" = Mounting
  /\ currentDateTimeUtc (mount_requested.1) = Qt.QDateTime_utc 2000
  /\ getDeviceTimeStamp (after (volume_attached ++ [mount_requested])) "udi-1"
     = Qt.QDateTime_utc 1000
  /\ getDeviceTimeStamp (after (volume_attached ++ [mount_requested])) "udi-1"
     <> currentDateTimeUtc (mount_requested.1).
Proof. repeat split; try (vm_compute; reflexivity). discriminate. Qed.

(** C9 (as amended): the time stamp of a device is the time of its
    registration: registering an untracked identifier sets it to the
    current time, and no lifecycle event changes the time stamp of any
    identifier. *)
Theorem deviceTimeStamp_is_registration_time env c s s' es :
  invoke env c s = Returns (tt, s', es) ->
  (forall udi,
     c = call_addMonitoringDevice udi ->
     m_devicesStates s !! udi = None ->
     getDeviceTimeStamp s' udi = currentDateTimeUtc env)
  /\ (is_lifecycle c = true ->
      forall udi, getDeviceTimeStamp s' udi = getDeviceTimeStamp s udi).
Proof.
  intros H. split.
  - intros udi -> E. cbn [invoke] in H.
    destruct (addMonitoringDevice_untracked env _ _ E)
      as (i & cs & es' & Hadd & _ & _ & _ & _ & _ & _ & _ & _ & Ht & _).
    rewrite Hadd in H. injection H as <- <-.
    unfold getDeviceTimeStamp. cbn. by rewrite lookup_insert_eq.
  - intros L udi.
    destruct (lifecycle_step _ _ _ _ _ L H)
      as [[-> _]|(i & i' & E & -> & _ & _ & Ht & _)]; [done|].
    unfold getDeviceTimeStamp. cbn. rewrite lookup_insert.
    case_decide; [subst; by rewrite E | done].
Qed.

Lemma deviceTimeStamp_is_registration_time_witness :
  getDeviceTimeStamp (after (volume_attached ++ [mount_requested])) "udi-1"
  = getDeviceTimeStamp (after volume_attached) "udi-1".
Proof.
  refine (proj2 (deviceTimeStamp_is_registration_time (mount_requested.1)
                   (mount_requested.2) (after volume_attached) _
                   [Emitted_stateChanged "udi-1"] _) eq_refl "udi-1").
  vm_compute. reflexivity.
Defined.

(** An external hard disk is a hotpluggable storage drive, so the union of
    conditions holds for it, and it is registered as not removable. *)
Lemma hotpluggable_drive_not_removable :
  union_of_conditions usb_hard_disk = true
  /\ isRemovable
       (after [(at_time 1000 usb_hard_disk, call_addMonitoringDevice "udi-1")])
       "udi-1" = false.
Proof. split; vm_compute; reflexivity. Qed.

(** C10 (as amended): registration of an untracked device sets isRemovable
    to true for a camera or a portable media player; otherwise, when the
    device has an ancestor storage drive, to whether that drive is removable
    or hotpluggable; otherwise to whether the device is itself a storage
    drive that is removable.  No lifecycle event changes isRemovable. *)
Theorem isRemovable_fixed_at_registration env c s s' es :
  invoke env c s = Returns (tt, s', es) ->
  (forall udi,
     c = call_addMonitoringDevice udi ->
     m_devicesStates s !! udi = None ->
     isRemovable s' udi = removable_at_registration (Solid_Device env udi))
  /\ (is_lifecycle c = true ->
      forall udi, isRemovable s' udi = isRemovable s udi).
Proof.
  intros H. split.
  - intros udi -> E. cbn [invoke] in H.
    destruct (addMonitoringDevice_untracked env _ _ E)
      as (i & cs & es' & Hadd & _ & _ & _ & _ & _ & _ & _ & _ & _ & _ & Hr).
    rewrite Hadd in H. injection H as <- <-.
    unfold isRemovable. cbn. by rewrite lookup_insert_eq.
  - intros L udi.
    destruct (lifecycle_step _ _ _ _ _ L H)
      as [[-> _]|(i & i' & E & -> & _ & Hr & _)]; [done|].
    unfold isRemovable. cbn. rewrite lookup_insert.
    case_decide; [subst; by rewrite E | done].
Qed.

Lemma isRemovable_fixed_at_registration_witness :
  isRemovable (after volume_attached) "udi-1"
  = removable_at_registration usb_volume.
Proof.
  refine (proj1 (isRemovable_fixed_at_registration (at_time 1000 usb_volume)
                   (call_addMonitoringDevice "udi-1") monitor_new _
                   (effects_of volume_attached) _) "udi-1" eq_refl eq_refl).
  vm_compute. reflexivity.
Defined.

(** * Further properties of the monitor *)

(** What a call does to the records, case by case: registration of an
    untracked identifier inserts a record, deregistration of a tracked one
    deletes it, a lifecycle event rewrites the record of its device or does
    nothing. *)
Lemma invoke_records env c s s' es :
  invoke env c s = Returns (tt, s', es) ->
  m_devicesStates s' = m_devicesStates s
  \/ (exists i, c = call_addMonitoringDevice (call_udi c)
                /\ m_devicesStates s !! call_udi c = None
                /\ m_devicesStates s' = <[call_udi c := i]> (m_devicesStates s)
                /\ DeviceInfo.state i = Idle
                /\ DeviceInfo.isChecked i = false)
  \/ (c = call_removeMonitoringDevice (call_udi c)
      /\ m_devicesStates s' = delete (call_udi c) (m_devicesStates s))
  \/ (exists i i', is_lifecycle c = true
                   /\ m_devicesStates s !! call_udi c = Some i
                   /\ m_devicesStates s' = <[call_udi c := i']> (m_devicesStates s)
                   /\ (DeviceInfo.state i <> NotPresent ->
                       DeviceInfo.state i' <> NotPresent)
                   /\ (DeviceInfo.isChecked i = true ->
                       DeviceInfo.isChecked i' = true)).
Proof.
  intros H.
  destruct c as [udi|udi|udi|udi|udi|udi|b udi|r v udi]; cbn [invoke call_udi] in *.
  - destruct (m_devicesStates s !! udi) as [i|] eqn:E.
    + rewrite (addMonitoringDevice_tracked _ _ _ _ E) in H.
      left. by injection H as <- <-.
    + destruct (addMonitoringDevice_untracked env _ _ E)
        as (i & cs & es' & Hadd & _ & _ & _ & Hst & Hc & _).
      rewrite Hadd in H. injection H as <- <-.
      right. left. by exists i.
  - destruct (m_devicesStates s !! udi) as [i|] eqn:E.
    + destruct (removeMonitoringDevice_tracked env _ _ _ E) as (rel & Hrm & _).
      rewrite Hrm in H. injection H as <- <-. right. right. by left.
    + rewrite (removeMonitoringDevice_untracked _ _ _ E) in H.
      left. by injection H as <- <-.
  - revert H. unfold setMountingState.
    destruct (m_devicesStates s !! udi) as [i|] eqn:E; run_slot E;
      intros [= <- <-]; [|by left].
    rewrite (alter_tracked _ _ _ _ E). do 3 right. by eexists _, _.
  - revert H. unfold setUnmountingState.
    destruct (m_devicesStates s !! udi) as [i|] eqn:E; run_slot E;
      intros [= <- <-]; [|by left].
    rewrite (alter_tracked _ _ _ _ E). do 3 right. by eexists _, _.
  - revert H. unfold setCheckingState.
    destruct (m_devicesStates s !! udi) as [i|] eqn:E; run_slot E;
      intros [= <- <-]; [|by left].
    rewrite (alter_tracked _ _ _ _ E). do 3 right. by eexists _, _.
  - revert H. unfold setRepairingState.
    destruct (m_devicesStates s !! udi) as [i|] eqn:E; run_slot E;
      intros [= <- <-]; [|by left].
    rewrite (alter_tracked _ _ _ _ E). do 3 right. by eexists _, _.
  - revert H. unfold setAccessibilityState.
    destruct (m_devicesStates s !! udi) as [i|] eqn:E; run_slot E;
      [|intros [= <- <-]; by left].
    case_bool_decide; cbn; intros [= <- <-]; [|by left].
    rewrite (alter_tracked _ _ _ _ E). do 3 right. by eexists _, _.
  - revert H. unfold setIdleState.
    destruct (Solid.isValid _); cbn; [|intros [= <- <-]; by left].
    destruct (m_devicesStates s !! udi) as [i|] eqn:E; run_slot E;
      [|intros [= <- <-]; by left].
    destruct (DeviceInfo.state i) eqn:St,
      (Solid.as_StorageAccess (Solid_Device env udi)) as [a|],
      (bool_decide (r = Solid.NoError)), (Qt.toBool v);
      cbn; rewrite ?alter_alter_eq, ?(alter_tracked _ _ _ _ E);
      try discriminate; intros [= <- <-]; do 3 right; by eexists _, _.
Qed.

(** X1: a call for one device leaves the record of every other device, and
    so the answer of every query about it, as it was. *)
Theorem other_devices_untouched env c s s' es other :
  invoke env c s = Returns (tt, s', es) ->
  other <> call_udi c ->
  m_devicesStates s' !! other = m_devicesStates s !! other
  /\ observe s' other = observe s other.
Proof.
  intros H Hne.
  assert (E : m_devicesStates s' !! other = m_devicesStates s !! other).
  { destruct (invoke_records _ _ _ _ _ H)
      as [->|[(i & _ & _ & -> & _)|[(_ & ->)|(i & i' & _ & _ & -> & _)]]];
      [done | by rewrite lookup_insert_ne | by rewrite lookup_delete_ne
      | by rewrite lookup_insert_ne]. }
  split; [done|].
  unfold observe, isBusy, isRemovable, isMounted, isChecked, needRepair,
    getState, getOperationResult, getOperationInfo, getDeviceTimeStamp.
  by rewrite E.
Qed.

Lemma other_devices_untouched_witness :
  observe (after (check_requested
                  ++ [(at_time 3000 usb_hard_disk,
                       call_addMonitoringDevice "udi-2")])) "udi-1"
  = observe (after check_requested) "udi-1".
Proof.
  refine (proj2 (other_devices_untouched (at_time 3000 usb_hard_disk)
                   (call_addMonitoringDevice "udi-2")
                   (after check_requested) _
                   [Emplaced "udi-2"; Emitted_stateChanged "udi-2"]
                   "udi-1" _ _)).
  - vm_compute. reflexivity.
  - discriminate.
Defined.

(** One step of [registered_after], on the monitor. *)
Lemma invoke_tracked env c s s' es udi :
  invoke env c s = Returns (tt, s', es) ->
  is_Some (m_devicesStates s' !! udi)
  <-> match c with
      | call_addMonitoringDevice u =>
          if decide (u = udi) then True else is_Some (m_devicesStates s !! udi)
      | call_removeMonitoringDevice u =>
          if decide (u = udi) then False else is_Some (m_devicesStates s !! udi)
      | _ => is_Some (m_devicesStates s !! udi)
      end.
Proof.
  intros H.
  destruct (is_lifecycle c) eqn:L.
  - assert (G : is_Some (m_devicesStates s' !! udi)
                <-> is_Some (m_devicesStates s !! udi)).
    { destruct (lifecycle_step _ _ _ _ _ L H)
        as [[-> _]|(i & i' & E & -> & _)]; [done|].
      cbn. rewrite lookup_insert. case_decide; [subst|done].
      rewrite E. split; eauto. }
    by destruct c.
  - destruct c as [u|u| | | | | |]; try discriminate; cbn [invoke] in H.
    + destruct (m_devicesStates s !! u) as [i|] eqn:E.
      * rewrite (addMonitoringDevice_tracked _ _ _ _ E) in H.
        injection H as <- <-. case_decide; [subst|done].
        rewrite E. split; eauto.
      * destruct (addMonitoringDevice_untracked env _ _ E)
          as (i & cs' & es' & Hadd & _).
        rewrite Hadd in H. injection H as <- <-. cbn.
        rewrite lookup_insert. case_decide; [split; eauto | done].
    + destruct (m_devicesStates s !! u) as [i|] eqn:E.
      * destruct (removeMonitoringDevice_tracked env _ _ _ E) as (rel & Hrm & _).
        rewrite Hrm in H. injection H as <- <-. cbn.
        rewrite lookup_delete. case_decide; [split; [by intros []|done] | done].
      * rewrite (removeMonitoringDevice_untracked _ _ _ E) in H.
        injection H as <- <-. case_decide; [subst|done].
        rewrite E. split; [by intros []|done].
Qed.

Lemma registered_after_from cs udi (b : bool) s s' es :
  run cs s = Returns (tt, s', es) ->
  (is_Some (m_devicesStates s !! udi) <-> b = true) ->
  is_Some (m_devicesStates s' !! udi)
  <-> fold_left
        (fun b ec =>
           match ec.2 with
           | call_addMonitoringDevice u => if decide (u = udi) then true else b
           | call_removeMonitoringDevice u => if decide (u = udi) then false else b
           | _ => b
           end)
        cs b = true.
Proof.
  revert b s es. induction cs as [|[env c] cs IH]; intros b s es H Hb.
  - by injection H as <- <-.
  - cbn in H. apply bind_Returns in H as ([] & s1 & e1 & e2 & H1 & H2 & _).
    cbn [fold_left]. eapply IH; [exact H2|]. cbn.
    rewrite (invoke_tracked _ _ _ _ _ udi H1).
    destruct c; try done; case_decide; done.
Qed.

(** X2: which devices are tracked depends on the registrations and
    deregistrations alone: after any sequence of calls the monitor
    completes, an identifier is tracked exactly when the last such call for
    it was a registration; lifecycle events create and destroy no record. *)
Theorem tracked_iff_last_registered cs s es udi :
  run cs monitor_new = Returns (tt, s, es) ->
  is_Some (m_devicesStates s !! udi) <-> registered_after cs udi = true.
Proof.
  intros H. unfold registered_after.
  eapply registered_after_from; [exact H|].
  cbn. rewrite lookup_empty. split; [by intros []|done].
Qed.

Lemma tracked_iff_last_registered_witness :
  is_Some (m_devicesStates (after (check_requested ++ [volume_removed])) !! "udi-1")
  <-> registered_after (check_requested ++ [volume_removed]) "udi-1" = true.
Proof.
  apply (tracked_iff_last_registered _ _
           (effects_of (check_requested ++ [volume_removed]))).
  vm_compute. reflexivity.
Defined.

Lemma invoke_NullDereference env c s :
  invoke env c s = NullDereference -> dereferences_null env c s.
Proof.
  destruct c as [udi|udi|udi|udi|udi|udi|b udi|r v udi]; cbn [invoke].
  - destruct (m_devicesStates s !! udi) as [i|] eqn:E.
    + by rewrite (addMonitoringDevice_tracked _ _ _ _ E).
    + destruct (addMonitoringDevice_untracked env _ _ E) as (i & cs & es & -> & _).
      done.
  - destruct (m_devicesStates s !! udi) as [i|] eqn:E.
    + destruct (removeMonitoringDevice_tracked env _ _ _ E) as (rel & -> & _).
      done.
    + by rewrite (removeMonitoringDevice_untracked _ _ _ E).
  - unfold setMountingState.
    destruct (m_devicesStates s !! udi) as [i|] eqn:E; run_slot E; done.
  - unfold setUnmountingState.
    destruct (m_devicesStates s !! udi) as [i|] eqn:E; run_slot E; done.
  - unfold setCheckingState.
    destruct (m_devicesStates s !! udi) as [i|] eqn:E; run_slot E; done.
  - unfold setRepairingState.
    destruct (m_devicesStates s !! udi) as [i|] eqn:E; run_slot E; done.
  - unfold setAccessibilityState.
    destruct (m_devicesStates s !! udi) as [i|] eqn:E; run_slot E; [|done].
    by case_bool_decide.
  - unfold setIdleState.
    destruct (Solid.isValid (Solid_Device env udi)) eqn:V; cbn; [|done].
    destruct (m_devicesStates s !! udi) as [i|] eqn:E; run_slot E; [|done].
    destruct (Solid.as_StorageAccess (Solid_Device env udi)) as [a|] eqn:A.
    + destruct (DeviceInfo.state i), (bool_decide (r = Solid.NoError)),
        (Qt.toBool v); done.
    + intros H. exists r, v, udi, i. repeat split; try done.
      destruct (DeviceInfo.state i) eqn:St; try (by auto); try done.
      destruct (decide (r = Solid.NoError)) as [->|Hr].
      * destruct (Qt.toBool v) eqn:Hv; [done|]. by auto.
      * by rewrite bool_decide_false in H.
Qed.

(** X3: a call fails, by dereferencing a null pointer, exactly when it is
    the completion of an operation for a tracked, valid device without a
    storage access interface whose state is Mounting or Unmounting, or
    Checking with a check that succeeded and reported problems.  Every
    other call returns. *)
Theorem fails_exactly_without_storage_access env c s :
  invoke env c s = NullDereference <-> dereferences_null env c s.
Proof.
  split; [apply invoke_NullDereference|].
  intros (r & v & udi & i & -> & V & E & A & St).
  by eapply setIdleState_null_access.
Qed.

(** X4: a sequence of calls in which every completion is for a device that
    is either not valid any more or exposes its storage access interface
    returns, from every monitor. *)
Theorem run_returns_with_storage_access cs s :
  forallb completion_safe cs = true ->
  exists s' es, run cs s = Returns (tt, s', es).
Proof.
  revert s. induction cs as [|[env c] cs IH]; intros s Hsafe.
  - by eexists _, _.
  - cbn in Hsafe. apply andb_prop in Hsafe as [Hc Hcs].
    cbn. unfold bind.
    destruct (invoke env c s) as [[[[] s1] e1]|] eqn:H.
    + destruct (IH s1 Hcs) as (s' & es & ->). by eexists _, _.
    + apply invoke_NullDereference in H
        as (r & v & udi & i & -> & V & _ & A & _).
      unfold completion_safe in Hc. cbn in Hc. by rewrite V, A in Hc.
Qed.

Lemma run_returns_with_storage_access_witness :
  exists s' es,
    run (check_requested
         ++ [(at_time 3000 detached,
              call_setIdleState Solid.NoError (Qt.QVariant_bool false) "udi-1")])
      monitor_new
    = Returns (tt, s', es).
Proof.
  apply run_returns_with_storage_access. vm_compute. reflexivity.
Defined.

Ltac run_slots E :=
  unfold_monad; cbn;
  repeat (progress
            (repeat first
               [ rewrite E
               | rewrite lookup_alter_eq
               | rewrite alter_alter_eq ];
             cbn)).

(** X5: a request followed by its completion.  For a tracked device,
    whatever state it is in, a mount, unmount, check or repair request
    followed by the completion of the operation (the device valid and
    exposing storage access then) returns, emits twice, and leaves the done
    marker of the request, isBusy false, the result and payload of the
    completion, isMounted as the interface reports it after a mount or
    unmount, and needRepair telling whether the repair failed after a
    repair. *)
Theorem request_then_done env1 env2 req st r v udi s i access :
  m_devicesStates s !! udi = Some i ->
  requested_state req = Some st ->
  call_udi req = udi ->
  Solid.isValid (Solid_Device env2 udi) = true ->
  Solid.as_StorageAccess (Solid_Device env2 udi) = Some access ->
  exists s',
    (invoke env1 req ;; setIdleState env2 r v udi) s
    = Returns (tt, s', [Emitted_stateChanged udi; Emitted_stateChanged udi])
    /\ getState s' udi = done_marker st
    /\ isBusy s' udi = false
    /\ getOperationResult s' udi = r
    /\ getOperationInfo s' udi = v
    /\ isMounted s' udi
       = (if bool_decide (st = Mounting \/ st = Unmounting)
          then Solid.isAccessible access else DeviceInfo.isMounted i)
    /\ needRepair s' udi
       = match st with
         | Checking =>
             bool_decide (r = Solid.NoError)
             && negb (Qt.toBool v) && Solid.canRepair access
         | Repairing => bool_decide (r <> Solid.NoError)
         | _ => DeviceInfo.needRepair i
         end
    /\ isChecked s' udi
       = (if bool_decide (st = Checking) then true else DeviceInfo.isChecked i)
    /\ isRemovable s' udi = DeviceInfo.isRemovable i
    /\ getDeviceTimeStamp s' udi = DeviceInfo.deviceTimeStamp i.
Proof.
  intros E Hreq Hudi V A.
  unfold getState, isBusy, isChecked, needRepair, getOperationResult,
    getOperationInfo, isMounted, isRemovable, getDeviceTimeStamp.
  destruct req; try discriminate; cbn in Hreq, Hudi; subst;
    injection Hreq as <-; cbn [invoke];
    unfold setMountingState, setUnmountingState, setCheckingState,
      setRepairingState, setIdleState; rewrite V, A; run_slots E;
    try (destruct (bool_decide (r = Solid.NoError)) eqn:Hr,
           (Qt.toBool v) eqn:Hv; cbn);
    rewrite ?alter_alter_eq; eexists; (split; [reflexivity|]); cbn;
    rewrite lookup_alter_eq, E; cbn; done.
Qed.

Lemma request_then_done_witness :
  exists s',
    (invoke (mount_requested.1) (mount_requested.2) ;;
     setIdleState (at_time 3000 usb_volume) Solid.UserCanceled
       (Qt.QVariant_string "cancelled") "udi-1") (after check_requested)
    = Returns (tt, s', [Emitted_stateChanged "udi-1"; Emitted_stateChanged "udi-1"])
    /\ getState s' "udi-1" = MountDone
    /\ getOperationResult s' "udi-1" = Solid.UserCanceled.
Proof.
  destruct (request_then_done (mount_requested.1) (at_time 3000 usb_volume)
              (mount_requested.2) Mounting Solid.UserCanceled
              (Qt.QVariant_string "cancelled") "udi-1" (after check_requested)
              checking_record mounted_access)
    as (s' & Hrun & Hstate & _ & Hres & _);
    [vm_compute; reflexivity | reflexivity | reflexivity | reflexivity
    | reflexivity |].
  exists s'. repeat split; assumption.
Defined.

(** X6: the done markers are left by the next completion.  For a tracked
    device that is valid both times, when one completion has returned the
    next one returns too, whatever the interfaces, and leaves the state
    Idle, with isBusy false, and isMounted, isChecked and needRepair as the
    first completion left them. *)
Theorem second_completion_settles_idle env1 env2 r1 v1 r2 v2 udi s s1 e1 :
  is_Some (m_devicesStates s !! udi) ->
  Solid.isValid (Solid_Device env1 udi) = true ->
  Solid.isValid (Solid_Device env2 udi) = true ->
  setIdleState env1 r1 v1 udi s = Returns (tt, s1, e1) ->
  exists s2,
    setIdleState env2 r2 v2 udi s1
    = Returns (tt, s2, [Emitted_stateChanged udi])
    /\ getState s2 udi = Idle
    /\ isBusy s2 udi = false
    /\ isMounted s2 udi = isMounted s1 udi
    /\ isChecked s2 udi = isChecked s1 udi
    /\ needRepair s2 udi = needRepair s1 udi
    /\ getOperationResult s2 udi = r2
    /\ getOperationInfo s2 udi = v2.
Proof.
  intros [i E] V1 V2.
  unfold getState, isBusy, isChecked, needRepair, getOperationResult,
    getOperationInfo, isMounted.
  unfold setIdleState. rewrite V1, V2. cbn. run_slot E.
  destruct (DeviceInfo.state i) eqn:St,
    (Solid.as_StorageAccess (Solid_Device env1 udi)) as [a|],
    (bool_decide (r1 = Solid.NoError)), (Qt.toBool v1);
    cbn; rewrite ?alter_alter_eq; try discriminate; intros [= <- <-];
    run_slots E; eexists; (split; [reflexivity|]); cbn;
    rewrite lookup_alter_eq, E; cbn; done.
Qed.

Lemma second_completion_settles_idle_witness :
  exists s2,
    setIdleState (at_time 4000 usb_volume_without_access) Solid.NoError
      Qt.QVariant_null "udi-1"
      (after (check_requested
              ++ [(at_time 3000 usb_volume,
                   call_setIdleState Solid.NoError (Qt.QVariant_bool false)
                     "udi-1")]))
    = Returns (tt, s2, [Emitted_stateChanged "udi-1"])
    /\ getState s2 "udi-1" = Idle
    /\ needRepair s2 "udi-1" = true.
Proof.
  destruct (second_completion_settles_idle (at_time 3000 usb_volume)
              (at_time 4000 usb_volume_without_access)
              Solid.NoError (Qt.QVariant_bool false) Solid.NoError
              Qt.QVariant_null "udi-1" (after check_requested)
              (after (check_requested
                      ++ [(at_time 3000 usb_volume,
                           call_setIdleState Solid.NoError
                             (Qt.QVariant_bool false) "udi-1")]))
              [Emitted_stateChanged "udi-1"])
    as (s2 & Hrun & Hstate & _ & _ & _ & Hrepair & _);
    [vm_compute; eauto | reflexivity | reflexivity
    | vm_compute; reflexivity |].
  exists s2. repeat split; [exact Hrun | exact Hstate|].
  rewrite Hrepair. vm_compute. reflexivity.
Defined.

Lemma records_present_invoke env c s s' es :
  records_present s ->
  invoke env c s = Returns (tt, s', es) ->
  records_present s'.
Proof.
  intros Inv H u j.
  destruct (invoke_records _ _ _ _ _ H)
    as [->|[(i & _ & _ & -> & St & _)|[(_ & ->)|(i & i' & _ & E & -> & P & _)]]].
  - apply Inv.
  - rewrite lookup_insert. case_decide; [|apply Inv].
    intros [= <-]. by rewrite St.
  - rewrite lookup_delete. case_decide; [done|apply Inv].
  - rewrite lookup_insert. case_decide; [|apply Inv].
    intros [= <-]. eauto.
Qed.

Lemma records_present_run cs s s' es :
  records_present s ->
  run cs s = Returns (tt, s', es) ->
  records_present s'.
Proof.
  revert s es. induction cs as [|[env c] cs IH]; intros s es Inv H.
  - by injection H as <- <-.
  - cbn in H. apply bind_Returns in H as ([] & s1 & e1 & e2 & H1 & H2 & _).
    eapply IH; [|exact H2]. eapply records_present_invoke; eauto.
Qed.

(** X7: [NotPresent] is the answer for untracked identifiers only: after
    any sequence of calls the fresh monitor completes, [getState(udi)] is
    NotPresent exactly when [udi] is not tracked. *)
Theorem NotPresent_iff_untracked cs s es udi :
  run cs monitor_new = Returns (tt, s, es) ->
  getState s udi = NotPresent <-> m_devicesStates s !! udi = None.
Proof.
  intros H.
  assert (Inv : records_present s).
  { eapply records_present_run; [|exact H].
    intros u i. cbn. by rewrite lookup_empty. }
  unfold getState. destruct (m_devicesStates s !! udi) as [i|] eqn:E; [|done].
  split; [|done]. intros St. by destruct (Inv _ _ E).
Qed.

Lemma NotPresent_iff_untracked_witness :
  getState (after (check_requested ++ [volume_removed])) "udi-1" = NotPresent
  <-> m_devicesStates (after (check_requested ++ [volume_removed])) !! "udi-1"
      = None.
Proof.
  apply (NotPresent_iff_untracked (check_requested ++ [volume_removed]) _
           (effects_of (check_requested ++ [volume_removed]))).
  vm_compute. reflexivity.
Defined.

(** X8: once a device has been checked it stays checked: through any
    sequence of calls that does not unregister it, [isChecked(udi)] stays
    true, whatever operations are requested and completed in between. *)
Theorem isChecked_persists cs s s' es udi :
  run cs s = Returns (tt, s', es) ->
  Forall (fun ec => ec.2 <> call_removeMonitoringDevice udi) cs ->
  isChecked s udi = true ->
  isChecked s' udi = true.
Proof.
  revert s es. induction cs as [|[env c] cs IH]; intros s es H Hcs Hc.
  - by injection H as <- <-.
  - cbn in H. apply bind_Returns in H as ([] & s1 & e1 & e2 & H1 & H2 & _).
    apply Forall_cons in Hcs as [Hne Hcs]. cbn in Hne.
    eapply IH; [exact H2|exact Hcs|].
    revert Hc. unfold isChecked.
    destruct (invoke_records _ _ _ _ _ H1)
      as [->|[(i & _ & Hn & -> & _)|[(Hrm & ->)|(i & i' & _ & E & -> & _ & P)]]].
    + done.
    + rewrite lookup_insert. case_decide; [subst|done]. by rewrite Hn.
    + rewrite lookup_delete. case_decide; [subst|done]. by rewrite Hrm in Hne.
    + rewrite lookup_insert. case_decide; [subst|done]. rewrite E. exact P.
Qed.

Lemma isChecked_persists_witness :
  isChecked (after (check_completed ++ checked_then_remounted)) "udi-1" = true.
Proof.
  apply (isChecked_persists checked_then_remounted (after check_completed) _
           (replicate 4 (Emitted_stateChanged "udi-1"))).
  - vm_compute. reflexivity.
  - repeat constructor; discriminate.
  - vm_compute. reflexivity.
Defined.

(** What a call does to the connections: nothing, or it appends the
    subscriptions of a registration, or it drops those of one sender. *)
Lemma invoke_connections env c s s' es :
  invoke env c s = Returns (tt, s', es) ->
  connections s' = connections s
  \/ (m_devicesStates s !! call_udi c = None
      /\ c = call_addMonitoringDevice (call_udi c)
      /\ connections s'
         = connections s
           ++ optical_subscriptions (Solid_Device env (call_udi c))
           ++ access_subscriptions (Solid_Device env (call_udi c)) (call_udi c))
  \/ (exists snd,
        c = call_removeMonitoringDevice (call_udi c)
        /\ connections s' = filter (fun c => sender c <> snd) (connections s)).
Proof.
  intros H. destruct (is_lifecycle c) eqn:L.
  - left. by destruct (lifecycle_step _ _ _ _ _ L H)
      as [[-> _]|(i & i' & _ & -> & _)].
  - destruct c as [udi|udi| | | | | |]; try discriminate;
      cbn [invoke call_udi] in *;
      destruct (m_devicesStates s !! udi) as [i|] eqn:E.
    + rewrite (addMonitoringDevice_tracked _ _ _ _ E) in H.
      left. by injection H as <- <-.
    + destruct (addMonitoringDevice_connections env _ _ E) as (m' & es' & Hadd).
      rewrite Hadd in H. injection H as <- <-. right. by left.
    + destruct (removeMonitoringDevice_tracked env _ _ _ E) as (rel & Hrm & _).
      rewrite Hrm in H. injection H as <- <-.
      destruct rel as [snd|]; [right; right; by exists snd | by left].
    + rewrite (removeMonitoringDevice_untracked _ _ _ E) in H.
      left. by injection H as <- <-.
Qed.

Lemma completions_connected_app cs1 cs2 :
  completions_connected cs1 -> completions_connected cs2 ->
  completions_connected (cs1 ++ cs2).
Proof.
  intros H1 H2 c done Hc Hd. rewrite elem_of_app in *.
  destruct Hc as [Hc|Hc]; [left; by eapply H1 | right; by eapply H2].
Qed.

Lemma completions_connected_filter snd cs :
  completions_connected cs ->
  completions_connected (filter (fun c => sender c <> snd) cs).
Proof.
  intros H c done Hc Hd. rewrite list_elem_of_filter in *.
  destruct Hc as [Hs Hc]. split; [done | by eapply H].
Qed.

Lemma completions_connected_subscriptions device udi :
  completions_connected
    (optical_subscriptions device ++ access_subscriptions device udi).
Proof.
  apply completions_connected_app.
  - unfold optical_subscriptions.
    destruct (Solid.is_OpticalDisc device),
      (Solid.ancestor_OpticalDrive device);
      intros c done Hc Hd; members; cbn in Hd; try discriminate;
      injection Hd as <-; member.
  - unfold access_subscriptions.
    destruct (Solid.is_StorageVolume device),
      (Solid.as_StorageAccess device) as [[[] [] ?]|];
      intros c done Hc Hd; cbn in Hc; members; cbn in Hd; try discriminate;
      injection Hd as <-; member.
Qed.

(** X9: the monitor never listens for the start of an operation without
    listening for its end: after any sequence of calls it completes, every
    connected [...Requested] signal has the matching [...Done] signal of
    the same sender connected to [setIdleState]. *)
Theorem requests_connected_with_completions cs s es :
  run cs monitor_new = Returns (tt, s, es) ->
  completions_connected (connections s).
Proof.
  assert (Hrun : forall cs s0 s es,
             completions_connected (connections s0) ->
             run cs s0 = Returns (tt, s, es) ->
             completions_connected (connections s)).
  { clear. induction cs as [|[env c] cs IH]; intros s0 s es Inv H.
    - by injection H as <- <-.
    - cbn in H. apply bind_Returns in H as ([] & s1 & e1 & e2 & H1 & H2 & _).
      eapply IH; [|exact H2].
      destruct (invoke_connections _ _ _ _ _ H1)
        as [->|[(_ & _ & ->)|(snd & _ & ->)]].
      + done.
      + apply completions_connected_app; [done|].
        apply completions_connected_subscriptions.
      + by apply completions_connected_filter. }
  apply Hrun. intros c done Hc. by apply elem_of_nil in Hc.
Qed.

Lemma requests_connected_with_completions_witness :
  {| sender := StorageAccess_of "udi-1"; signal := checkDone;
     slot := slot_setIdleState |} ∈ connections (after check_requested).
Proof.
  refine (requests_connected_with_completions check_requested
            (after check_requested) (effects_of check_requested) _
            {| sender := StorageAccess_of "udi-1"; signal := checkRequested;
               slot := slot_setCheckingState |} checkDone _ eq_refl).
  - vm_compute. reflexivity.
  - vm_compute. member.
Defined.

Lemma filter_sender_keep snd (cs : list Connection) :
  Forall (fun c => sender c <> snd) cs ->
  filter (fun c => sender c <> snd) cs = cs.
Proof.
  induction 1 as [|c cs Hc _ IH]; [done|].
  rewrite filter_cons, decide_True by done. by rewrite IH.
Qed.

Lemma filter_sender_drop snd (cs : list Connection) :
  Forall (fun c => sender c = snd) cs ->
  filter (fun c => sender c <> snd) cs = [].
Proof.
  induction 1 as [|c cs Hc _ IH]; [done|].
  rewrite filter_cons, decide_False by auto. exact IH.
Qed.

Lemma optical_subscriptions_senders device :
  Forall (fun c => exists drive,
            Solid.ancestor_OpticalDrive device = Some drive
            /\ sender c = OpticalDrive_of (Solid.drive_udi drive))
    (optical_subscriptions device).
Proof.
  unfold optical_subscriptions.
  destruct (Solid.is_OpticalDisc device),
    (Solid.ancestor_OpticalDrive device) as [drive|];
    repeat constructor; by exists drive.
Qed.

Lemma access_subscriptions_senders device udi :
  Forall (fun c => sender c = StorageAccess_of udi)
    (access_subscriptions device udi).
Proof.
  unfold access_subscriptions.
  destruct (Solid.is_StorageVolume device),
    (Solid.as_StorageAccess device) as [[[] [] ?]|]; repeat constructor.
Qed.

(** X10: registering an untracked device and unregistering it while Solid
    answers the same restores the records, and restores the connections
    too, except that the connections to the optical drive stay behind when
    the device is a storage volume (deregistration then looks at the
    storage access interface only).  This when the monitor held no
    connection from the senders involved. *)
Theorem register_unregister_connections env udi s :
  m_devicesStates s !! udi = None ->
  Forall (fun c =>
            sender c <> StorageAccess_of udi
            /\ forall drive,
                 Solid.ancestor_OpticalDrive (Solid_Device env udi) = Some drive ->
                 sender c <> OpticalDrive_of (Solid.drive_udi drive))
    (connections s) ->
  exists s' es,
    (addMonitoringDevice env udi ;; removeMonitoringDevice env udi) s
    = Returns (tt, s', es)
    /\ m_devicesStates s' = m_devicesStates s
    /\ connections s'
       = connections s
         ++ (if Solid.is_StorageVolume (Solid_Device env udi)
             then optical_subscriptions (Solid_Device env udi) else []).
Proof.
  intros E Hfree. unfold bind.
  destruct (addMonitoringDevice_untracked env _ _ E) as (i & cs & es & Hadd & _).
  destruct (addMonitoringDevice_connections env _ _ E) as (m' & es' & Hadd').
  rewrite Hadd in Hadd'. injection Hadd' as Hm Hcs _. rewrite Hadd, Hcs.
  clear Hadd Hm Hcs m' es' cs.
  match goal with
  | |- context [ removeMonitoringDevice env udi ?s1 ] =>
      destruct (removeMonitoringDevice_tracked env udi s1 i) as (rel & -> & Hrel);
        [cbn; apply lookup_insert_eq|]
  end.
  eexists _, _. split; [reflexivity|]. cbn [m_devicesStates connections].
  split; [rewrite delete_insert_eq; by apply delete_id|].
  pose proof (optical_subscriptions_senders (Solid_Device env udi)) as Ho.
  pose proof (access_subscriptions_senders (Solid_Device env udi) udi) as Ha.
  assert (Hs : Forall (fun c => sender c <> StorageAccess_of udi) (connections s))
    by (eapply Forall_impl; [exact Hfree|]; by intros c [? _]).
  subst rel. cbn zeta.
  destruct (Solid.is_StorageVolume (Solid_Device env udi)) eqn:SV.
  - destruct (Solid.as_StorageAccess (Solid_Device env udi)) as [a|] eqn:A.
    + rewrite !filter_app, (filter_sender_keep _ _ Hs),
        (filter_sender_drop _ _ Ha), app_nil_r.
      rewrite filter_sender_keep; [done|].
      eapply Forall_impl; [exact Ho|]. by intros c (drive & _ & ->).
    + unfold access_subscriptions. rewrite SV, A. by rewrite app_nil_r.
  - unfold access_subscriptions in *. rewrite SV. rewrite !app_nil_r.
    unfold optical_subscriptions in *.
    destruct (Solid.is_OpticalDisc (Solid_Device env udi)); [|by rewrite app_nil_r].
    destruct (Solid.ancestor_OpticalDrive (Solid_Device env udi)) as [drive|] eqn:D;
      [|by rewrite app_nil_r].
    rewrite filter_app, filter_sender_keep.
    + rewrite filter_sender_drop; [by rewrite ?app_nil_r|]. repeat constructor.
    + eapply Forall_impl; [exact Hfree|]. intros c [_ Hd]. by apply Hd.
Qed.

Lemma register_unregister_connections_witness :
  exists s' es,
    (addMonitoringDevice (at_time 1000 audio_disc) "udi-1" ;;
     removeMonitoringDevice (at_time 1000 audio_disc) "udi-1") monitor_new
    = Returns (tt, s', es)
    /\ m_devicesStates s' = m_devicesStates monitor_new
    /\ connections s'
       = connections monitor_new
         ++ (if Solid.is_StorageVolume
                  (Solid_Device (at_time 1000 audio_disc) "udi-1")
             then optical_subscriptions
                    (Solid_Device (at_time 1000 audio_disc) "udi-1")
             else []).
Proof.
  apply register_unregister_connections; [reflexivity | constructor].
Defined.

(** X11: observers hear only about devices that calls were made for, at
    most once per call and in the order of the calls: the identifiers
    notified by a sequence of calls that returns form a sublist of the
    identifiers of the calls. *)
Theorem notifications_follow_calls cs s s' es :
  run cs s = Returns (tt, s', es) ->
  notifications es `sublist_of` (fun ec : Env * Call => call_udi ec.2) <$> cs.
Proof.
  revert s es. induction cs as [|[env c] cs IH]; intros s es H.
  - by injection H as <- <-.
  - cbn in H. apply bind_Returns in H as ([] & s1 & e1 & e2 & H1 & H2 & ->).
    unfold notifications in *. rewrite omap_app. cbn [fmap list_fmap].
    specialize (IH _ _ H2).
    destruct (invoke_notifies _ _ _ _ _ H1) as [[_ ->]|Hn].
    + cbn. by apply sublist_cons.
    + unfold notifications in Hn. rewrite Hn. cbn. by apply sublist_skip.
Qed.

Lemma notifications_follow_calls_witness :
  notifications (effects_of (check_requested ++ [volume_unmounted; volume_removed]))
  `sublist_of` ["udi-1"; "udi-1"; "udi-1"; "udi-1"].
Proof.
  apply (notifications_follow_calls
           (check_requested ++ [volume_unmounted; volume_removed])
           monitor_new
           (after (check_requested ++ [volume_unmounted; volume_removed]))).
  vm_compute. reflexivity.
Defined.

(** X12: a device that is unregistered and registered again starts
    afresh, whatever its record held (an operation in flight included):
    the two calls return, and afterwards the queries answer as for a first
    registration: Idle, not busy, not checked, no repair needed, no
    operation result, the time stamp of the new registration, and
    isRemovable and isMounted as Solid reports then. *)
Theorem reregistration_starts_afresh env1 env2 udi s :
  exists s' es,
    (removeMonitoringDevice env1 udi ;; addMonitoringDevice env2 udi) s
    = Returns (tt, s', es)
    /\ observe s' udi
       = (false,
          removable_at_registration (Solid_Device env2 udi),
          Solid.is_StorageVolume (Solid_Device env2 udi)
          && from_option Solid.isAccessible false
               (Solid.as_StorageAccess (Solid_Device env2 udi)),
          false, false, Idle, Solid.NoError, Qt.QVariant_null,
          currentDateTimeUtc env2)
    /\ notifications es
       = (if bool_decide (is_Some (m_devicesStates s !! udi))
          then [udi; udi] else [udi]).
Proof.
  unfold bind.
  assert (Hfresh : forall s1 : DevicesStateMonitor,
             m_devicesStates s1 !! udi = None ->
             exists s' es,
               addMonitoringDevice env2 udi s1 = Returns (tt, s', es)
               /\ observe s' udi
                  = (false,
                     removable_at_registration (Solid_Device env2 udi),
                     Solid.is_StorageVolume (Solid_Device env2 udi)
                     && from_option Solid.isAccessible false
                          (Solid.as_StorageAccess (Solid_Device env2 udi)),
                     false, false, Idle, Solid.NoError, Qt.QVariant_null,
                     currentDateTimeUtc env2)
               /\ notifications es = [udi]).
  { intros s1 E1.
    destruct (addMonitoringDevice_untracked env2 _ _ E1)
      as (i & cs & es & -> & Hn & _ & Hb & Hst & Hc & Hr & Hres & Hinfo & Ht
          & Hm & Hrem).
    eexists _, _. split; [reflexivity|]. split; [|exact Hn].
    unfold observe, isBusy, isRemovable, isMounted, isChecked, needRepair,
      getState, getOperationResult, getOperationInfo, getDeviceTimeStamp.
    cbn. rewrite lookup_insert_eq.
    rewrite Hb, Hst, Hc, Hr, Hres, Hinfo, Ht, Hm, Hrem. cbn zeta.
    by destruct (Solid.as_StorageAccess (Solid_Device env2 udi)). }
  destruct (m_devicesStates s !! udi) as [i|] eqn:E.
  - destruct (removeMonitoringDevice_tracked env1 _ _ _ E) as (rel & -> & _).
    match goal with
    | |- context [ addMonitoringDevice env2 udi ?s1 ] =>
        destruct (Hfresh s1) as (s' & es & -> & Hobs & Hn);
          [cbn; apply lookup_delete_eq|]
    end.
    eexists _, _. split; [reflexivity|]. split; [exact Hobs|].
    rewrite bool_decide_true by eauto.
    unfold notifications in *. cbn. rewrite omap_app, Hn.
    by destruct rel.
  - rewrite (removeMonitoringDevice_untracked _ _ _ E).
    destruct (Hfresh s E) as (s' & es & -> & Hobs & Hn).
    eexists _, _. split; [reflexivity|]. split; [exact Hobs|].
    rewrite bool_decide_false by (by intros []). exact Hn.
Qed.

Lemma delete_replicate {A} k n (a : A) :
  k < S n -> delete k (replicate (S n) a) = replicate n a.
Proof.
  revert k. induction n as [|n IH]; intros k Hk.
  - by destruct k; [|lia].
  - destruct k as [|k]; [done|].
    rewrite replicate_S. cbn. f_equal. apply IH. lia.
Qed.

Lemma single_instance_use u w w' :
  single_instance w -> use u w = Some w' -> single_instance w'.
Proof.
  destruct w as [[al sc cn] hs].
  intros [[Hh Ha]|(a & n & m & Hs & Hh & Ha)]; cbn in *; subst.
  - destruct u as [|k|k env c]; cbn.
    + unfold instance, expired; cbn.
      destruct sc as [a|]; cbn; [rewrite lookup_empty; cbn|];
        intros [= <-]; right; exists cn, 0, monitor_new; cbn;
        by rewrite insert_empty.
    + intros [= <-]. by left.
    + intros [= <-]. by left.
  - destruct u as [|k|k env c]; cbn -[replicate].
    + unfold instance, expired, lock; cbn. rewrite lookup_singleton_eq. cbn.
      intros [= <-]. right. exists a, (S n), m. cbn.
      rewrite insert_singleton_eq. split; [done|]. split; [|done].
      cbn. f_equal. by rewrite <- replicate_S_end.
    + change (a :: replicate n a) with (replicate (S n) a).
      destruct (replicate (S n) a !! k) as [b|] eqn:Hk;
        [|intros [= <-]; right; by exists a, n, m].
      apply lookup_replicate in Hk as [-> Hk].
      rewrite delete_replicate by done.
      intros [= <-]. unfold release. cbn. rewrite lookup_singleton_eq.
      destruct n as [|n]; cbn.
      * left. split; [done|]. apply delete_singleton_eq.
      * right. exists a, n, m. cbn. by rewrite insert_singleton_eq.
    + change (a :: replicate n a) with (replicate (S n) a).
      destruct (replicate (S n) a !! k) as [b|] eqn:Hk;
        [|intros [= <-]; right; by exists a, n, m].
      apply lookup_replicate in Hk as [-> Hk].
      rewrite lookup_singleton_eq.
      destruct (invoke env c m) as [[[[] m'] es]|]; [|done].
      intros [= <-]. right. exists a, n, m'. cbn.
      by rewrite insert_singleton_eq.
Qed.

Lemma single_instance_uses us w w' :
  single_instance w -> uses us w = Some w' -> single_instance w'.
Proof.
  revert w. induction us as [|u us IH]; intros w Inv; cbn.
  - by intros [= <-].
  - destruct (use u w) as [w1|] eqn:H; [|done].
    apply IH. by eapply single_instance_use.
Qed.

(** X13: the monitor is a singleton.  Through any sequence of uses
    ([instance()], dropping a pointer, calls through a pointer) that
    completes, any two pointers held at the same time are to the same
    monitor, that monitor is alive, and a call to [instance()] then returns
    a pointer to it, never a null pointer and never a second monitor. *)
Theorem instance_is_shared us w :
  uses us world_start = Some w ->
  (forall j k a b, handles w !! j = Some a -> handles w !! k = Some b -> a = b)
  /\ (forall k a, handles w !! k = Some a ->
                  is_Some (alive (process w) !! a)
                  /\ (instance (process w)).1 = Some a)
  /\ is_Some (instance (process w)).1.
Proof.
  intros H.
  assert (Inv : single_instance w).
  { eapply single_instance_uses; [|exact H]. by left. }
  destruct w as [[al sc cn] hs].
  destruct Inv as [[Hh Ha]|(a & n & m & Hs & Hh & Ha)]; cbn -[replicate] in *; subst.
  - split; [by intros j k a b; rewrite lookup_nil|].
    split; [by intros k a; rewrite lookup_nil|].
    unfold instance, expired. cbn.
    destruct sc as [a|]; cbn; [rewrite lookup_empty; cbn|]; eauto.
  - assert (Hi : (instance {| alive := {[a := (S n, m)]}; s_clip := Some a;
                              constructed := cn |}).1 = Some a).
    { unfold instance, expired, lock. cbn. by rewrite lookup_singleton_eq. }
    split; [|split].
    + intros j k b c [-> _]%lookup_replicate [-> _]%lookup_replicate. done.
    + intros k b [-> _]%lookup_replicate.
      rewrite lookup_singleton_eq. split; [eauto|exact Hi].
    + rewrite Hi. eauto.
Qed.

Lemma instance_is_shared_witness :
  (instance (process (default world_start (uses two_users world_start)))).1
  = Some 0.
Proof.
  refine (proj2 (proj1 (proj2 (instance_is_shared two_users
                                 (default world_start (uses two_users world_start))
                                 _)) 0 0 _)).
  - vm_compute. reflexivity.
  - vm_compute. reflexivity.
Defined.

(** X14: a request that is repeated changes nothing the second time but is
    notified again: two equal requests in a row leave the monitor one
    request leaves, and emit what one request emits, twice. *)
Theorem repeated_request_notifies_again env1 env2 req st s :
  requested_state req = Some st ->
  exists s1 es,
    invoke env1 req s = Returns (tt, s1, es)
    /\ (invoke env1 req ;; invoke env2 req) s = Returns (tt, s1, es ++ es)
    /\ es = (if bool_decide (is_Some (m_devicesStates s !! call_udi req))
             then [Emitted_stateChanged (call_udi req)] else []).
Proof.
  intros Hreq.
  destruct (m_devicesStates s !! call_udi req) as [i|] eqn:E.
  - rewrite bool_decide_true by eauto.
    destruct req as [| |udi|udi|udi|udi| |]; try discriminate; cbn in *;
      unfold setMountingState, setUnmountingState, setCheckingState,
        setRepairingState;
      run_slots E; eexists _, _; (split; [reflexivity|]); (split; [|done]);
      do 2 f_equal; f_equal; apply map_eq; intros u;
      rewrite !lookup_alter; (case_decide; [subst; rewrite E; cbn|done]);
      by destruct i.
  - rewrite bool_decide_false by (by intros []).
    destruct req as [| |udi|udi|udi|udi| |]; try discriminate; cbn in *;
      unfold setMountingState, setUnmountingState, setCheckingState,
        setRepairingState;
      run_slots E; by eexists _, _.
Qed.

Lemma repeated_request_notifies_again_witness :
  exists s1 es,
    invoke (mount_requested.1) (mount_requested.2) (after volume_attached)
    = Returns (tt, s1, es)
    /\ (invoke (mount_requested.1) (mount_requested.2) ;;
        invoke (mount_requested.1) (mount_requested.2)) (after volume_attached)
       = Returns (tt, s1, es ++ es)
    /\ es = (if bool_decide
                  (is_Some (m_devicesStates (after volume_attached)
                            !! call_udi (mount_requested.2)))
             then [Emitted_stateChanged (call_udi (mount_requested.2))]
             else []).
Proof.
  apply (repeated_request_notifies_again _ _ _ Mounting). reflexivity.
Defined.
